(** * Client administration actions (client/client_actions/admin.py)

    A shallow embedding of the actions of [admin.py]: each [Run] method is a
    computation in a small state-and-exception monad over a [World] that
    holds the global flags ([conf.FLAGS]), the clock, the readings the
    actions take from the host, and the trace of the effects performed so
    far (messages handed to the worker, sleeps, log lines, persistence
    calls, allocations). Assignments to fields of protocol buffers are
    checked as the library checks them: a value that does not fit its
    field raises.

    The file [admin.py] imports its collaborators ([actions.ActionPlugin],
    the worker, [jobs_pb2], [conf], [client_config]); the parts of them the
    actions use are given here as class parameters or as definitions
    modelled from the specification, each marked as such. *)

From Stdlib Require Import ZArith QArith Lqa PrimFloat FloatOps SpecFloat.
From stdpp Require Import gmap strings list.

Local Open Scope Z_scope.

(** ** Python values *)

(** Python 2 floats are IEEE binary64 numbers. *)
Abbreviation pyfloat := PrimFloat.float.

(** The exceptions the actions can meet. *)
Inductive Exn :=
| IOError
| OSError
| ValueError
| OverflowError
| PyException (name : string).

(** [long(x)] for a float [x]: truncation towards zero; [ValueError] on a
    NaN and [OverflowError] on an infinity. *)
Definition long (x : pyfloat) : Exn + Z :=
  match Prim2SF x with
  | S754_zero _ => inr 0
  | S754_finite s m e =>
      let a := if 0 <=? e then Z.shiftl (Z.pos m) e
               else Z.shiftr (Z.pos m) (- e) in
      inr (if s then - a else a)
  | S754_infinity _ => inl OverflowError
  | S754_nan => inl ValueError
  end.

(** [x or d] on integers: [d] when [x] is zero (falsy), else [x]. *)
Definition py_or (x d : Z) : Z := if x =? 0 then d else x.

(** [s * n] on strings: [n] copies of [s], none when [n <= 0]. *)
Fixpoint str_repeat (s : string) (n : nat) : string :=
  match n with
  | O => ""
  | S n' => s +:+ str_repeat s n'
  end.

Definition py_str_mul (s : string) (n : Z) : string :=
  str_repeat s (Z.to_nat n).
Arguments py_str_mul : simpl never.

(** [range(n)]. *)
Definition range (n : Z) : list Z := seqZ 0 n.

(** [sep.join(l)]. *)
Fixpoint join (sep : string) (l : list string) : string :=
  match l with
  | [] => ""
  | [x] => x
  | x :: l' => x +:+ sep +:+ join sep l'
  end.

(** Values of flags and of the scalar fields of [GRRConfig]. *)
Inductive PyValue :=
| VInt (z : Z)
| VStr (s : string)
| VBool (b : bool)
| VFloat (x : pyfloat).

(** ** Protocol buffers ([jobs_pb2]) *)

Inductive MessageType := MESSAGE | STATUS.

Inductive ReturnedStatus := OK.

Record PrintStr := { data : string }.

(** [DataBlob]: an unset [integer] reads as 0. *)
Record DataBlob := {
  DataBlob_integer : option Z;
  DataBlob_string : option string
}.

Definition integer (arg : DataBlob) : Z := default 0 (DataBlob_integer arg).

Record Uname := {
  system : string; node : string; release : string;
  version : string; machine : string
}.

Record GrrStatus := { status : ReturnedStatus }.

Record ClientInformation := {
  client_name : string;
  client_version : Z;
  build_time : string
}.

Record CpuSample := {
  cpu_timestamp : Z;
  user_cpu_time : pyfloat;
  system_cpu_time : pyfloat;
  cpu_percent : pyfloat
}.

Record IOSample := {
  io_timestamp : Z;
  read_bytes : Z;
  write_bytes : Z
}.

Record ClientStats := {
  RSS_size : Z;
  VMS_size : Z;
  memory_percent : pyfloat;
  bytes_received : Z;
  bytes_sent : Z;
  create_time : Z;
  ClientStats_boot_time : Z;
  cpu_samples : list CpuSample;
  io_samples : list IOSample
}.

Record StartupInfo := {
  client_info : ClientInformation;
  boot_time : Z
}.

(** A [GRRConfig] message: the fields that are set, with their values, in
    the order [ListFields()] gives them. Field names are distinct. *)
Definition GRRConfig := list (string * PyValue).

Definition ListFields (arg : GRRConfig) : list (string * PyValue) := arg.

(** [getattr(msg, field)] on a [GRRConfig], and the message with [field]
    holding [value] ([pb_put]: what [setattr] stores once the value has
    passed the type checker of the field, see [pb_setattr]). *)
Fixpoint pb_getattr (msg : GRRConfig) (field : string) : option PyValue :=
  match msg with
  | [] => None
  | (f, v) :: msg' =>
      if decide (f = field) then Some v else pb_getattr msg' field
  end.

Fixpoint pb_put (msg : GRRConfig) (field : string) (value : PyValue)
  : GRRConfig :=
  match msg with
  | [] => [(field, value)]
  | (f, v) :: msg' =>
      if decide (f = field) then (f, value) :: msg'
      else (f, v) :: pb_put msg' field value
  end.

Inductive Protobuf :=
| PPrintStr (m : PrintStr)
| PDataBlob (m : DataBlob)
| PUname (m : Uname)
| PGrrStatus (m : GrrStatus)
| PGRRConfig (m : GRRConfig)
| PClientInformation (m : ClientInformation)
| PClientStats (m : ClientStats)
| PStartupInfo (m : StartupInfo).

(** A message handed to the worker for sending. *)
Record GrrMessage := {
  session_id : string;
  request_id : Z;
  response_id : Z;
  priority : Z;
  message_type : MessageType;
  require_fastpoll : bool;
  ttl : option Z;
  payload : Protobuf
}.

(** The request an action is run for ([self.message]). *)
Record Request := {
  req_session_id : string;
  req_request_id : Z
}.

(** The integer types of protocol buffer fields, and their ranges: an
    integer assigned to a field must lie in the range of its type, else
    the assignment raises [ValueError]. *)
Inductive IntKind := TYPE_INT32 | TYPE_INT64 | TYPE_UINT32 | TYPE_UINT64.

Definition int_min (kind : IntKind) : Z :=
  match kind with
  | TYPE_INT32 => - 2 ^ 31
  | TYPE_INT64 => - 2 ^ 63
  | TYPE_UINT32 | TYPE_UINT64 => 0
  end.

Definition int_max (kind : IntKind) : Z :=
  match kind with
  | TYPE_INT32 => 2 ^ 31 - 1
  | TYPE_INT64 => 2 ^ 63 - 1
  | TYPE_UINT32 => 2 ^ 32 - 1
  | TYPE_UINT64 => 2 ^ 64 - 1
  end.

Definition int_fits (kind : IntKind) (value : Z) : bool :=
  (int_min kind <=? value) && (value <=? int_max kind).

(** The constants of [jobs_pb2] and of [client_config] the actions read.
    Neither module is part of [admin.py]; they are parameters.
    [NORMAL_PRIORITY] is the priority of a reply sent without an explicit
    one, and [GRRConfig_fields] the keys of
    [GRRConfig.DESCRIPTOR.fields_by_name]. The descriptors also give the
    types of the fields: [GRRConfig_check field value] is the exception
    the type checker of the [GRRConfig] field raises for [value] ([None]
    when the value fits the field), and [int_field name] the integer type
    of the integer field called [name] ("ClientStats.RSS_size", ...). *)
Class jobs_pb2 := {
  LOW_PRIORITY : Z;
  NORMAL_PRIORITY : Z;
  HIGH_PRIORITY : Z;
  GRRConfig_fields : list string;
  GRRConfig_check : string → PyValue → option Exn;
  int_field : string → IntKind
}.

Class client_config := {
  GRR_CLIENT_NAME : string;
  GRR_CLIENT_VERSION : Z;
  GRR_CLIENT_BUILDTIME : string
}.

(** ** The world *)

(** What the actions read from the host: [socket], [platform], [psutil],
    [stats.STATS] and the worker's stats collector. *)
Record Host := {
  gethostname : string;
  uname : Uname;
  get_memory_info : Z * Z;
  get_memory_percent : pyfloat;
  proc_create_time : pyfloat;
  BOOT_TIME : pyfloat;
  STATS_Get : string → Z;
  collector_cpu_samples : list (pyfloat * pyfloat * pyfloat * pyfloat);
  collector_io_samples : list (pyfloat * Z * Z)
}.

(** The effects an action performs, in the order it performs them. *)
Inductive Event :=
| EvSendReply (msg : GrrMessage)     (* grr_worker.SendReply *)
| EvWorkerSleep (seconds : Z)        (* grr_worker.Sleep *)
| EvSleep (seconds : Z)              (* time.sleep *)
| EvInfo (line : string)             (* logging.info *)
| EvWarning (line : string)          (* logging.warning *)
| EvPersist (keys : list string)     (* conf.PARSER.UpdateConfig *)
| EvAlloc (bytes : Z).               (* a string appended to a live list *)

Record World := {
  FLAGS : gmap string PyValue;       (* conf.FLAGS *)
  self_response_id : Z;              (* self.response_id of the action *)
  clock : Q;                         (* the time, in seconds *)
  tick : Q;                          (* time that passes per clock reading *)
  PARSER_fault : list string → option Exn;
                                     (* what a persistence call meets *)
  host : Host;
  trace : list Event
}.

Definition with_FLAGS (f : gmap string PyValue) (w : World) : World :=
  {| FLAGS := f; self_response_id := self_response_id w; clock := clock w;
     tick := tick w; PARSER_fault := PARSER_fault w; host := host w;
     trace := trace w |}.

Definition with_response_id (r : Z) (w : World) : World :=
  {| FLAGS := FLAGS w; self_response_id := r; clock := clock w;
     tick := tick w; PARSER_fault := PARSER_fault w; host := host w;
     trace := trace w |}.

Definition with_clock (c : Q) (w : World) : World :=
  {| FLAGS := FLAGS w; self_response_id := self_response_id w; clock := c;
     tick := tick w; PARSER_fault := PARSER_fault w; host := host w;
     trace := trace w |}.

Definition with_trace (t : list Event) (w : World) : World :=
  {| FLAGS := FLAGS w; self_response_id := self_response_id w;
     clock := clock w; tick := tick w; PARSER_fault := PARSER_fault w;
     host := host w; trace := t |}.

(** The messages of a trace, oldest first. *)
Definition replies (t : list Event) : list GrrMessage :=
  omap (λ e, match e with EvSendReply m => Some m | _ => None end) t.

(** ** The monad of actions *)

(** How a computation ends: it returns, an exception propagates out of it,
    the process exits ([os._exit]), or the model ran out of fuel (only for
    the busy-wait loop). *)
Inductive Outcome (A : Type) :=
| Returned (a : A)
| Raised (e : Exn)
| Exited (code : Z)
| OutOfFuel.
Arguments Returned {A} a.
Arguments Raised {A} e.
Arguments Exited {A} code.
Arguments OutOfFuel {A}.

Definition M (A : Type) : Type := World → Outcome A * World.

#[global] Instance M_ret : MRet M := λ A a w, (Returned a, w).

#[global] Instance M_bind : MBind M := λ A B k m w,
  match m w with
  | (Returned a, w') => k a w'
  | (Raised e, w') => (Raised e, w')
  | (Exited c, w') => (Exited c, w')
  | (OutOfFuel, w') => (OutOfFuel, w')
  end.

Definition raise {A} (e : Exn) : M A := λ w, (Raised e, w).

Definition out_of_fuel {A} : M A := λ w, (OutOfFuel, w).

(** [try: m except <classes>: handler]. *)
Definition try_except {A} (m : M A) (classes : Exn → bool) (handler : M A)
  : M A := λ w,
  match m w with
  | (Raised e, w') => if classes e then handler w' else (Raised e, w')
  | r => r
  end.

Definition get_world : M World := λ w, (Returned w, w).

Definition modify (f : World → World) : M unit := λ w, (Returned (), f w).

Definition emit (e : Event) : M unit :=
  modify (λ w, with_trace (trace w ++ [e]) w).

Definition advance (d : Q) : M unit :=
  modify (λ w, with_clock (clock w + d)%Q w).

(** [for x in xs: s = body(s, x)]. *)
Fixpoint for_each {A S : Type} (xs : list A) (body : S → A → M S) (s : S)
  : M S :=
  match xs with
  | [] => mret s
  | x :: xs' => s' ← body s x; for_each xs' body s'
  end.

(** *** Library calls *)

Definition time_time : M Q := λ w,
  (Returned (clock w), with_clock (clock w + tick w)%Q w).

(** [time.sleep]: a negative duration is an [IOError] (EINVAL). *)
Definition time_sleep (seconds : Z) : M unit :=
  if seconds <? 0 then raise IOError
  else emit (EvSleep seconds);; advance (inject_Z seconds).

Definition logging_info (line : string) : M unit := emit (EvInfo line).
Definition logging_warning (line : string) : M unit := emit (EvWarning line).

Definition os__exit {A} (code : Z) : M A := λ w, (Exited code, w).

Definition hasattr_FLAGS (name : string) : M bool := λ w,
  (Returned (bool_decide (is_Some (FLAGS w !! name))), w).

Definition getattr_FLAGS (name : string) : M PyValue := λ w,
  match FLAGS w !! name with
  | Some v => (Returned v, w)
  | None => (Raised (PyException "AttributeError"), w)
  end.

Definition setattr_FLAGS (name : string) (value : PyValue) : M unit :=
  modify (λ w, with_FLAGS (<[name := value]> (FLAGS w)) w).

(** [long(x * 1e6)]. *)
Definition long_micros (x : pyfloat) : M Z :=
  match long (x * 1e6)%float with
  | inr z => mret z
  | inl e => raise e
  end.

(** [l.append(x)] for a list of strings kept alive by the action. *)
Definition append (l : list string) (x : string) : M (list string) :=
  emit (EvAlloc (Z.of_nat (String.length x)));; mret (l ++ [x]).

(** ** The collaborators of the actions *)

Section Actions.
Context {pb : jobs_pb2} {cc : client_config}.

(** Modelled from the spec: [grr_worker.SendReply], the worker's entry to
    the reply channel, is not part of [admin.py]. The message is enqueued
    stamped with the addressing, priority, type, urgency flag and
    time-to-live it is given, which the channel preserves and forwards
    unmodified; a time-to-live that is not given is absent. *)
Definition grr_worker_SendReply (protobuf : Protobuf) (session_id : string)
    (response_id request_id priority : Z) (message_type : MessageType)
    (require_fastpoll : bool) (ttl : option Z) : M unit :=
  emit (EvSendReply {| session_id := session_id; request_id := request_id;
                       response_id := response_id; priority := priority;
                       message_type := message_type;
                       require_fastpoll := require_fastpoll;
                       ttl := ttl; payload := protobuf |}).

(** Modelled from the spec: [grr_worker.Sleep] is not part of [admin.py];
    the dispatch thread waits for the given number of seconds. *)
Definition grr_worker_Sleep (seconds : Z) : M unit :=
  emit (EvWorkerSleep seconds);; advance (inject_Z seconds).

(** Modelled from the spec: [actions.ActionPlugin.SendReply] is not part of
    [admin.py]. Normal addressing: the message inherits the session and the
    request of the triggering request, responses are numbered in increasing
    order, and the message asks for expedited transport (the requirement
    the Auto variant of the stats action is said to relax) and has no
    time-to-live. *)
Definition SendReply_with (message : Request) (protobuf : Protobuf)
    (message_type : MessageType) (priority : Z) : M unit :=
  w ← get_world;
  grr_worker_SendReply protobuf (req_session_id message)
    (self_response_id w) (req_request_id message) priority message_type
    true None;;
  modify (λ w', with_response_id (self_response_id w' + 1) w').

(** [self.SendReply(protobuf)]: a [MESSAGE] of the default priority. *)
Definition SendReply (message : Request) (protobuf : Protobuf) : M unit :=
  SendReply_with message protobuf MESSAGE NORMAL_PRIORITY.

(** Modelled from the spec: [conf.PARSER.UpdateConfig] is not part of
    [admin.py]; of the storage only "write succeeded" or "write failed" is
    known. The call is recorded with the keys it is given and then meets
    whatever the storage holds in store for it. *)
Definition PARSER_UpdateConfig (keys : list string) : M unit :=
  emit (EvPersist keys);;
  w ← get_world;
  match PARSER_fault w keys with
  | None => mret ()
  | Some e => raise e
  end.

(** [setattr(msg, field, value)] on a [GRRConfig]: the type checker of the
    field raises when the value does not fit it; otherwise the value is
    stored. *)
Definition pb_setattr (msg : GRRConfig) (field : string) (value : PyValue)
  : M GRRConfig :=
  match GRRConfig_check field value with
  | Some e => raise e
  | None => mret (pb_put msg field value)
  end.

(** The assignment of an integer to the integer field called [name]: a
    [ValueError] when the value is out of the range of the field. *)
Definition pb_set_int (name : string) (value : Z) : M Z :=
  if int_fits (int_field name) value then mret value else raise ValueError.

(** ** The actions *)

(** [Echo.Run]. *)
Definition Echo_Run (message : Request) (args : PrintStr) : M unit :=
  SendReply message (PPrintStr args).

(** [GetHostname.Run]. *)
Definition GetHostname_Run (message : Request) : M unit :=
  w ← get_world;
  SendReply message
    (PDataBlob {| DataBlob_integer := None;
                  DataBlob_string := Some (gethostname (host w)) |}).

(** [GetPlatformInfo.Run]. *)
Definition GetPlatformInfo_Run (message : Request) : M unit :=
  w ← get_world;
  let uname := uname (host w) in
  SendReply message
    (PUname {| system := system uname; node := node uname;
               release := release uname; version := version uname;
               machine := machine uname |}).

(** [Kill.Run]. *)
Definition Kill_Run (message : Request) : M unit :=
  let reply := {| status := OK |} in
  SendReply_with message (PGrrStatus reply) STATUS (HIGH_PRIORITY + 1);;
  grr_worker_Sleep 10;;
  logging_info "Dying on request.";;
  os__exit 242.

(** [Hang.Run]. *)
Definition Hang_Run (arg : DataBlob) : M unit :=
  time_sleep (py_or (integer arg) 6000).

(** The loop [while time.time() < end: pass] of [BusyHang.Run]. *)
Fixpoint BusyHang_spin (fuel : nat) (end_ : Q) : M unit :=
  match fuel with
  | O => out_of_fuel
  | S fuel' =>
      now ← time_time;
      if Qlt_le_dec now end_ then BusyHang_spin fuel' end_ else mret ()
  end.

(** [BusyHang.Run]. *)
Definition BusyHang_Run (fuel : nat) (arg : DataBlob) : M unit :=
  now ← time_time;
  let end_ := (now + inject_Z (py_or (integer arg) 5))%Q in
  BusyHang_spin fuel end_.

(** [Bloat.Run]. *)
Definition Bloat_Run (arg : DataBlob) : M unit :=
  let iterations := py_or (integer arg) 1024 in
  l ← for_each (range iterations)
        (λ l _, append l (py_str_mul "X" 1048576)) [];
  time_sleep 60.

(** [GetConfig.Run]. *)
Definition GetConfig_Run (message : Request) : M unit :=
  out ← for_each GRRConfig_fields
          (λ out field,
             has ← hasattr_FLAGS field;
             if has : bool then
               value ← getattr_FLAGS field;
               pb_setattr out field value
             else mret out) [];
  SendReply message (PGRRConfig out).

(** [UpdateConfig.UPDATEABLE_FIELDS]. *)
Definition UPDATEABLE_FIELDS : list string :=
  ["compression";
   "foreman_check_frequency";
   "location";
   "max_post_size";
   "max_out_queue";
   "poll_min";
   "poll_max";
   "poll_slew";
   "rss_max";
   "verbose"].

(** The classes [except (IOError, OSError)] catches. *)
Definition IOError_or_OSError (e : Exn) : bool :=
  match e with
  | IOError | OSError => true
  | _ => false
  end.

(** The body of the loop of [UpdateConfig.Run], on the pair
    [(updated_keys, disallowed_fields)]. *)
Definition UpdateConfig_step (acc : list string * list string)
    (fv : string * PyValue) : M (list string * list string) :=
  let '(updated_keys, disallowed_fields) := acc in
  let '(field, value) := fv in
  if bool_decide (field ∈ UPDATEABLE_FIELDS) then
    setattr_FLAGS field value;;
    mret (updated_keys ++ [field], disallowed_fields)
  else
    mret (updated_keys, disallowed_fields ++ [field]).

(** [UpdateConfig.Run]. *)
Definition UpdateConfig_Run (arg : GRRConfig) : M unit :=
  acc ← for_each (ListFields arg) UpdateConfig_step ([], []);
  let '(updated_keys, disallowed_fields) := acc in
  (if bool_decide (disallowed_fields ≠ []) then
     logging_warning
       ("Received an update request for restricted field(s) "
        +:+ join "," disallowed_fields +:+ ".")
   else mret ());;
  try_except (PARSER_UpdateConfig updated_keys) IOError_or_OSError (mret ()).

(** [GetClientInfo.Run]. *)
Definition GetClientInfo_Run (message : Request) : M unit :=
  SendReply message
    (PClientInformation {| client_name := GRR_CLIENT_NAME;
                           client_version := GRR_CLIENT_VERSION;
                           build_time := GRR_CLIENT_BUILDTIME |}).

(** The [ClientStats] response [GetClientStats.Run] assembles before it
    calls [self.Send]. *)
Definition GetClientStats_response : M ClientStats :=
  w ← get_world;
  let proc := host w in
  let '(rss, vms) := get_memory_info proc in
  rss ← pb_set_int "ClientStats.RSS_size" rss;
  vms ← pb_set_int "ClientStats.VMS_size" vms;
  let mem := get_memory_percent proc in
  received ← pb_set_int "ClientStats.bytes_received"
               (STATS_Get proc "grr_client_received_bytes");
  sent ← pb_set_int "ClientStats.bytes_sent"
           (STATS_Get proc "grr_client_sent_bytes");
  created ← long_micros (proc_create_time proc);
  created ← pb_set_int "ClientStats.create_time" created;
  booted ← long_micros (BOOT_TIME proc);
  booted ← pb_set_int "ClientStats.boot_time" booted;
  cpu ← for_each (collector_cpu_samples proc)
          (λ acc '(timestamp, user, system, percent),
             t ← long_micros timestamp;
             t ← pb_set_int "CpuSample.timestamp" t;
             mret (acc ++ [{| cpu_timestamp := t; user_cpu_time := user;
                              system_cpu_time := system;
                              cpu_percent := percent |}])) [];
  io ← for_each (collector_io_samples proc)
         (λ acc '(timestamp, read_bytes, write_bytes),
            t ← long_micros timestamp;
            t ← pb_set_int "IOSample.timestamp" t;
            read_bytes ← pb_set_int "IOSample.read_bytes" read_bytes;
            write_bytes ← pb_set_int "IOSample.write_bytes" write_bytes;
            mret (acc ++ [{| io_timestamp := t; read_bytes := read_bytes;
                             write_bytes := write_bytes |}])) [];
  mret {| RSS_size := rss; VMS_size := vms; memory_percent := mem;
          bytes_received := received; bytes_sent := sent;
          create_time := created; ClientStats_boot_time := booted;
          cpu_samples := cpu; io_samples := io |}.

(** [GetClientStats.Run], with the [Send] method of the instance. *)
Definition GetClientStats_Run (Send : ClientStats → M unit) : M unit :=
  response ← GetClientStats_response;
  Send response.

(** [GetClientStats.Send]. *)
Definition GetClientStats_Send (message : Request) (response : ClientStats)
  : M unit :=
  SendReply message (PClientStats response).

(** [GetClientStatsAuto.Send]. *)
Definition GetClientStatsAuto_Send (response : ClientStats) : M unit :=
  grr_worker_SendReply (PClientStats response) "W:Stats" 0 0 LOW_PRIORITY
    MESSAGE false None.

(** [SendStartupInfo.well_known_session_id]. *)
Definition well_known_session_id : string := "W:Startup".

(** [SendStartupInfo.Run]. *)
Definition SendStartupInfo_Run (ttl : option Z) : M unit :=
  w ← get_world;
  let client_info := {| client_name := GRR_CLIENT_NAME;
                        client_version := GRR_CLIENT_VERSION;
                        build_time := GRR_CLIENT_BUILDTIME |} in
  booted ← long_micros (BOOT_TIME (host w));
  booted ← pb_set_int "StartupInfo.boot_time" booted;
  let response := {| client_info := client_info; boot_time := booted |} in
  grr_worker_SendReply (PStartupInfo response) well_known_session_id 0 0
    LOW_PRIORITY MESSAGE false ttl.

(** ** The registry of actions *)

Inductive Action :=
| Echo | GetHostname | GetPlatformInfo | Kill | Hang | BusyHang | Bloat
| GetConfig | UpdateConfig | GetClientInfo | GetClientStats
| GetClientStatsAuto | SendStartupInfo.

(** What [Run] is given: the decoded [in_protobuf] of the action, and for
    [SendStartupInfo] its [ttl]. *)
Definition in_protobuf (a : Action) : Type :=
  match a with
  | Echo => PrintStr
  | Hang | BusyHang | Bloat => DataBlob
  | UpdateConfig => GRRConfig
  | SendStartupInfo => option Z
  | _ => unit
  end.

(** Running an action for a request; [fuel] bounds the busy-wait loop. *)
Definition Run (fuel : nat) (a : Action) (message : Request)
  : in_protobuf a → M unit :=
  match a with
  | Echo => λ args, Echo_Run message args
  | GetHostname => λ _, GetHostname_Run message
  | GetPlatformInfo => λ _, GetPlatformInfo_Run message
  | Kill => λ _, Kill_Run message
  | Hang => λ arg, Hang_Run arg
  | BusyHang => λ arg, BusyHang_Run fuel arg
  | Bloat => λ arg, Bloat_Run arg
  | GetConfig => λ _, GetConfig_Run message
  | UpdateConfig => λ arg, UpdateConfig_Run arg
  | GetClientInfo => λ _, GetClientInfo_Run message
  | GetClientStats => λ _, GetClientStats_Run (GetClientStats_Send message)
  | GetClientStatsAuto => λ _, GetClientStats_Run GetClientStatsAuto_Send
  | SendStartupInfo => λ ttl, SendStartupInfo_Run ttl
  end.

End Actions.

(** ** A concrete build and a concrete world

    Used to run the actions on explicit inputs. The priorities are ordered
    as their names say; the descriptor of [GRRConfig] lists the updatable
    flags and two that are not; strings, a boolean and unsigned 64-bit
    integers are its field types, and every integer field of the other
    messages is an unsigned 64-bit integer. *)

Definition sample_check (field : string) (value : PyValue) : option Exn :=
  if decide (field ∈ ["compression"; "location"; "camode"; "arbitrary_field"])
  then match value with
       | VStr _ => None
       | _ => Some (PyException "TypeError")
       end
  else if decide (field = "verbose")
  then match value with
       | VBool _ => None
       | _ => Some (PyException "TypeError")
       end
  else match value with
       | VInt z => if int_fits TYPE_UINT64 z then None else Some ValueError
       | _ => Some (PyException "TypeError")
       end.

Definition sample_jobs_pb2 : jobs_pb2 :=
  {| LOW_PRIORITY := 0; NORMAL_PRIORITY := 1; HIGH_PRIORITY := 2;
     GRRConfig_fields := UPDATEABLE_FIELDS ++ ["camode"; "arbitrary_field"];
     GRRConfig_check := sample_check;
     int_field := λ _, TYPE_UINT64 |}.

Definition sample_client_config : client_config :=
  {| GRR_CLIENT_NAME := "GRR Monitor"; GRR_CLIENT_VERSION := 1;
     GRR_CLIENT_BUILDTIME := "unknown" |}.

Definition sample_host : Host :=
  {| gethostname := "client.example.org";
     uname := {| system := "Linux"; node := "client"; release := "3.2.0";
                 version := "#1 SMP"; machine := "x86_64" |};
     get_memory_info := (20480000, 104857600);
     get_memory_percent := 1.5%float;
     proc_create_time := 1351700000.25%float;
     BOOT_TIME := 1351600000%float;
     STATS_Get := λ name,
       if decide (name = "grr_client_received_bytes") then 4096 else 1024;
     collector_cpu_samples :=
       [(1351700010.5, 0.5, 0.25, 2.5)%float;
        (1351700020.5, 0.75, 0.25, 3.5)%float];
     collector_io_samples := [(1351700010.5%float, 100, 200)] |}.

Definition sample_world : World :=
  {| FLAGS := {["poll_min" := VInt 60; "camode" := VStr "TEST"]};
     self_response_id := 1;
     clock := 0;
     tick := 1 # 4;
     PARSER_fault := λ _, None;
     host := sample_host;
     trace := [] |}.

(** The same world with a storage that cannot be written. *)
Definition readonly_world : World :=
  {| FLAGS := FLAGS sample_world;
     self_response_id := 1; clock := 0; tick := 1 # 4;
     PARSER_fault := λ _, Some IOError;
     host := sample_host; trace := [] |}.

Definition sample_request : Request :=
  {| req_session_id := "F:12345"; req_request_id := 7 |}.

(** * Vocabulary of the properties *)

Section Vocabulary.
Context {pb : jobs_pb2} {cc : client_config}.

(** [emits P m]: whatever the world, [m] only extends the trace, and every
    message it hands to the worker satisfies [P]. *)
Definition emits {A} (P : GrrMessage → Prop) (m : M A) : Prop :=
  ∀ w, ∃ new, trace (m w).2 = trace w ++ new ∧ Forall P (replies new).

(** A message that answers [message]: normal addressing, with the given
    type and priority. *)
Definition to_requester (message : Request) (mt : MessageType) (prio : Z)
    (m : GrrMessage) : Prop :=
  session_id m = req_session_id message ∧
  request_id m = req_request_id message ∧
  message_type m = mt ∧ priority m = prio ∧
  require_fastpoll m = true ∧ ttl m = None.

(** A message to the well-known session [sid]: well-known addressing, low
    priority, no expedited transport. *)
Definition to_well_known (sid : string) (ttl' : option Z) (m : GrrMessage)
  : Prop :=
  session_id m = sid ∧ request_id m = 0 ∧ response_id m = 0 ∧
  message_type m = MESSAGE ∧ priority m = LOW_PRIORITY ∧
  require_fastpoll m = false ∧ ttl m = ttl'.

(** The priority of the messages of each action. *)
Definition priority_of (a : Action) : Z :=
  match a with
  | Kill => HIGH_PRIORITY + 1
  | GetClientStatsAuto | SendStartupInfo => LOW_PRIORITY
  | _ => NORMAL_PRIORITY
  end.

(** The message [self.SendReply(protobuf)] enqueues in the world [w]. *)
Definition reply_to (message : Request) (w : World) (protobuf : Protobuf)
  : GrrMessage :=
  {| session_id := req_session_id message;
     request_id := req_request_id message;
     response_id := self_response_id w;
     priority := NORMAL_PRIORITY; message_type := MESSAGE;
     require_fastpoll := true; ttl := None; payload := protobuf |}.

(** The message [SendStartupInfo] hands over for a boot time [booted]. *)
Definition startup_message (ttl : option Z) (booted : Z) : GrrMessage :=
  {| session_id := "W:Startup"; request_id := 0; response_id := 0;
     priority := LOW_PRIORITY; message_type := MESSAGE;
     require_fastpoll := false; ttl := ttl;
     payload :=
       PStartupInfo
         {| client_info :=
              {| client_name := GRR_CLIENT_NAME;
                 client_version := GRR_CLIENT_VERSION;
                 build_time := GRR_CLIENT_BUILDTIME |};
            boot_time := booted |} |}.

(** The message [GetClientStatsAuto] hands over for a response. *)
Definition stats_message (response : ClientStats) : GrrMessage :=
  {| session_id := "W:Stats"; request_id := 0; response_id := 0;
     priority := LOW_PRIORITY; message_type := MESSAGE;
     require_fastpoll := false; ttl := None;
     payload := PClientStats response |}.

(** The outcome of a computation that returns [a] or raises [e]. *)
Definition result {A} (r : Exn + A) : Outcome A :=
  match r with
  | inl e => Raised e
  | inr a => Returned a
  end.

(** [reads_only m w]: run in [w], [m] returns or raises and leaves the
    world as it is. *)
Definition reads_only {A} (m : M A) (w : World) : Prop :=
  ∃ r : Exn + A, m w = (result r, w).

(** The flags after the loop of [UpdateConfig.Run] over [fields]. *)
Definition apply_fields (flags : gmap string PyValue)
    (fields : list (string * PyValue)) : gmap string PyValue :=
  foldl (λ flags fv,
           if bool_decide (fv.1 ∈ UPDATEABLE_FIELDS)
           then <[fv.1 := fv.2]> flags else flags)
        flags fields.

(** The names of [fields] that are on the whitelist, in the order of the
    request. *)
Definition allowed (fields : list (string * PyValue)) : list string :=
  filter (λ f, f ∈ UPDATEABLE_FIELDS) fields.*1.

(** The names of [fields] that are not on the whitelist, in the order of
    the request. *)
Definition restricted (fields : list (string * PyValue)) : list string :=
  filter (λ f, f ∉ UPDATEABLE_FIELDS) fields.*1.

(** The log lines of a request: one warning when a field was refused. *)
Definition warnings (fields : list (string * PyValue)) : list Event :=
  if bool_decide (restricted fields ≠ []) then
    [EvWarning ("Received an update request for restricted field(s) "
                +:+ join "," (restricted fields) +:+ ".")]
  else [].

(** One round of the loop of [GetConfig.Run], on the flags [flags]. *)
Definition read_flag (flags : gmap string PyValue) (out : GRRConfig)
    (field : string) : GRRConfig :=
  match flags !! field with
  | Some value => pb_put out field value
  | None => out
  end.

(** The loop of [GetConfig.Run] over [fields], on the flags [flags] and
    from the message [out]: the message it builds, or the exception of
    the first flag that does not fit its field. *)
Fixpoint read_flags (flags : gmap string PyValue) (fields : list string)
    (out : GRRConfig) : Exn + GRRConfig :=
  match fields with
  | [] => inr out
  | field :: fields' =>
      match flags !! field with
      | None => read_flags flags fields' out
      | Some value =>
          match GRRConfig_check field value with
          | Some e => inl e
          | None => read_flags flags fields' (pb_put out field value)
          end
      end
  end.

(** [flags_fit flags]: every flag that exists and is named in the
    descriptor of [GRRConfig] passes the type checker of its field. *)
Definition flags_fit (flags : gmap string PyValue) : Prop :=
  ∀ field value,
    field ∈ GRRConfig_fields → flags !! field = Some value →
    GRRConfig_check field value = None.



(** The scenario of the specification. *)
Definition scenario_request : GRRConfig :=
  [("poll_min", VInt 5); ("arbitrary_field", VStr "x")].

(** A request with a refused field between two whitelisted ones. *)
Definition mixed_request : GRRConfig :=
  [("verbose", VBool true); ("arbitrary_field", VStr "x");
   ("poll_min", VInt 5)].

(** [answers_once message w run protobuf]: in the world [w], [run] returns
    after handing over exactly one message, which answers [message] as a
    MESSAGE of the default priority with the payload [protobuf], and it
    leaves the flags as they are. *)
Definition answers_once (message : Request) (w : World) (run : M unit)
    (protobuf : Protobuf) : Prop :=
  ∃ m w',
    run w = (Returned (), w') ∧
    trace w' = trace w ++ [EvSendReply m] ∧
    payload m = protobuf ∧
    to_requester message MESSAGE NORMAL_PRIORITY m ∧
    response_id m = self_response_id w ∧
    FLAGS w' = FLAGS w.

(** A world whose storage fails with an exception that is neither an
    IOError nor an OSError. *)
Definition broken_world : World :=
  {| FLAGS := FLAGS sample_world;
     self_response_id := 1; clock := 0; tick := 1 # 4;
     PARSER_fault := λ _, Some (PyException "ConfigParser.Error");
     host := sample_host; trace := [] |}.

(** [sends_at_most n m]: whatever the world, [m] only extends the trace,
    and hands at most [n] messages to the worker. *)
Definition sends_at_most {A} (n : nat) (m : M A) : Prop :=
  ∀ w, ∃ new, trace (m w).2 = trace w ++ new ∧ (length (replies new) ≤ n)%nat.

(** The most messages a run of each action hands over. *)
Definition max_replies (a : Action) : nat :=
  match a with
  | Hang | BusyHang | Bloat | UpdateConfig => 0
  | _ => 1
  end.

(** [keeps_flags m]: whatever the world, [m] leaves [conf.FLAGS] as they
    are. *)
Definition keeps_flags {A} (m : M A) : Prop :=
  ∀ w, FLAGS (m w).2 = FLAGS w.

(** [never_exits m]: whatever the world, [m] does not end the process. *)
Definition never_exits {A} (m : M A) : Prop :=
  ∀ w code, (m w).1 ≠ Exited code.

(** The samples of a stats response, from the samples of the collector
    and the timestamps converted to microseconds. *)
Definition cpu_sample_of (sample : pyfloat * pyfloat * pyfloat * pyfloat)
    (t : Z) : CpuSample :=
  {| cpu_timestamp := t; user_cpu_time := sample.1.1.2;
     system_cpu_time := sample.1.2; cpu_percent := sample.2 |}.

Definition io_sample_of (sample : pyfloat * Z * Z) (t : Z) : IOSample :=
  {| io_timestamp := t; read_bytes := sample.1.2; write_bytes := sample.2 |}.

(** An integer that fits the integer field called [name], and a float
    that [long(x * 1e6)] converts to an integer that fits it. *)
Definition fits (name : string) (z : Z) : Prop :=
  int_fits (int_field name) z = true.

Definition stores (name : string) (x : pyfloat) : Prop :=
  ∃ z, long (x * 1e6)%float = inr z ∧ fits name z.

(** The samples of the collector that a stats response can hold. *)
Definition cpu_storable (sample : pyfloat * pyfloat * pyfloat * pyfloat)
  : Prop :=
  stores "CpuSample.timestamp" sample.1.1.1.

Definition io_storable (sample : pyfloat * Z * Z) : Prop :=
  stores "IOSample.timestamp" sample.1.1 ∧
  fits "IOSample.read_bytes" sample.1.2 ∧
  fits "IOSample.write_bytes" sample.2.

(** A sample of a stats response that renders a sample of the collector:
    the timestamp converted to microseconds, the other fields as they
    are. *)
Definition cpu_converted (sample : pyfloat * pyfloat * pyfloat * pyfloat)
    (out : CpuSample) : Prop :=
  long (sample.1.1.1 * 1e6)%float = inr (cpu_timestamp out) ∧
  out = cpu_sample_of sample (cpu_timestamp out).

Definition io_converted (sample : pyfloat * Z * Z) (out : IOSample) : Prop :=
  long (sample.1.1 * 1e6)%float = inr (io_timestamp out) ∧
  out = io_sample_of sample (io_timestamp out).

End Vocabulary.

(** * Properties *)

(** ** The monad *)

Lemma bind_unfold {A B} (m : M A) (k : A → M B) (w : World) :
  (m ≫= k) w =
  match m w with
  | (Returned a, w') => k a w'
  | (Raised e, w') => (Raised e, w')
  | (Exited c, w') => (Exited c, w')
  | (OutOfFuel, w') => (OutOfFuel, w')
  end.
Proof. reflexivity. Qed.

Lemma mret_eq {A} (a : A) (w : World) :
  (mret a : M A) w = (Returned a, w).
Proof. reflexivity. Qed.

Lemma for_each_cons {A S} (x : A) (xs : list A) (body : S → A → M S) (s : S) :
  for_each (x :: xs) body s = (body s x ≫= for_each xs body).
Proof. reflexivity. Qed.

Lemma replies_app (t1 t2 : list Event) :
  replies (t1 ++ t2) = replies t1 ++ replies t2.
Proof. unfold replies. apply omap_app. Qed.

Lemma with_FLAGS_FLAGS (w : World) : with_FLAGS (FLAGS w) w = w.
Proof. destruct w; reflexivity. Qed.

(** ** What a computation hands to the reply channel *)

Create HintDb emits discriminated.

Section Emits.
Context {A B : Type} (P : GrrMessage → Prop).

Lemma emits_nothing (m : M A) :
  (∀ w, trace (m w).2 = trace w) → emits P m.
Proof.
  intros H w. exists []. rewrite H, app_nil_r. split; [done|constructor].
Qed.

Lemma emits_mret (a : A) : emits P (mret a).
Proof. by apply emits_nothing. Qed.

Lemma emits_raise (e : Exn) : emits P (raise e : M A).
Proof. by apply emits_nothing. Qed.

Lemma emits_out_of_fuel : emits P (out_of_fuel : M A).
Proof. by apply emits_nothing. Qed.

Lemma emits_os__exit (code : Z) : emits P (os__exit code : M A).
Proof. by apply emits_nothing. Qed.

Lemma emits_bind (m : M A) (k : A → M B) :
  emits P m → (∀ a, emits P (k a)) → emits P (m ≫= k).
Proof.
  intros Hm Hk w. rewrite bind_unfold.
  destruct (Hm w) as (new & Ht & HP).
  destruct (m w) as [[a|e|c|] w'] eqn:E; simpl in Ht;
    try (exists new; split; [exact Ht|exact HP]).
  destruct (Hk a w') as (new' & Ht' & HP').
  exists (new ++ new'). rewrite Ht', Ht, app_assoc. split; [done|].
  rewrite replies_app. by apply Forall_app.
Qed.

Lemma emits_try_except (m : M A) (classes : Exn → bool) (handler : M A) :
  emits P m → emits P handler → emits P (try_except m classes handler).
Proof.
  intros Hm Hh w. unfold try_except.
  destruct (Hm w) as (new & Ht & HP).
  destruct (m w) as [[a|e|c|] w'] eqn:E; simpl in Ht;
    try (exists new; split; [exact Ht|exact HP]).
  destruct (classes e); [|exists new; split; [exact Ht|exact HP]].
  destruct (Hh w') as (new' & Ht' & HP').
  exists (new ++ new'). rewrite Ht', Ht, app_assoc. split; [done|].
  rewrite replies_app. by apply Forall_app.
Qed.

End Emits.

Lemma emits_for_each {A S} (P : GrrMessage → Prop) (xs : list A)
    (body : S → A → M S) (s : S) :
  (∀ s x, emits P (body s x)) → emits P (for_each xs body s).
Proof.
  intros Hb. revert s.
  induction xs as [|x xs IH]; intros s; simpl.
  - apply emits_mret.
  - apply emits_bind; [apply Hb|exact IH].
Qed.

Lemma emits_get_world (P : GrrMessage → Prop) : emits P get_world.
Proof. by apply emits_nothing. Qed.

Lemma emits_SendReply_event (P : GrrMessage → Prop) (msg : GrrMessage) :
  P msg → emits P (emit (EvSendReply msg)).
Proof.
  intros HP w. exists [EvSendReply msg]. split; [done|].
  by repeat constructor.
Qed.

Lemma emits_other_event (P : GrrMessage → Prop) (e : Event) :
  replies [e] = [] → emits P (emit e).
Proof.
  intros He w. exists [e]. split; [done|]. rewrite He. constructor.
Qed.

Lemma emits_advance (P : GrrMessage → Prop) (d : Q) : emits P (advance d).
Proof. by apply emits_nothing. Qed.

Lemma emits_time_time (P : GrrMessage → Prop) : emits P time_time.
Proof. by apply emits_nothing. Qed.

Lemma emits_hasattr_FLAGS (P : GrrMessage → Prop) (name : string) :
  emits P (hasattr_FLAGS name).
Proof. by apply emits_nothing. Qed.

Lemma emits_getattr_FLAGS (P : GrrMessage → Prop) (name : string) :
  emits P (getattr_FLAGS name).
Proof.
  apply emits_nothing. intros w. unfold getattr_FLAGS.
  by destruct (FLAGS w !! name).
Qed.

Lemma emits_setattr_FLAGS (P : GrrMessage → Prop) (name : string)
    (value : PyValue) :
  emits P (setattr_FLAGS name value).
Proof. by apply emits_nothing. Qed.

Lemma emits_long_micros (P : GrrMessage → Prop) (x : pyfloat) :
  emits P (long_micros x).
Proof.
  unfold long_micros. destruct (long _); [apply emits_raise|apply emits_mret].
Qed.

Lemma emits_time_sleep (P : GrrMessage → Prop) (seconds : Z) :
  emits P (time_sleep seconds).
Proof.
  unfold time_sleep. destruct (seconds <? 0); [apply emits_raise|].
  apply emits_bind; [by apply emits_other_event|].
  intros _. apply emits_advance.
Qed.

#[global] Hint Resolve emits_mret emits_raise emits_out_of_fuel emits_os__exit
  emits_get_world emits_advance emits_time_time emits_hasattr_FLAGS
  emits_getattr_FLAGS emits_setattr_FLAGS emits_long_micros emits_time_sleep
  : emits.

Section ActionProperties.
Context {pb : jobs_pb2} {cc : client_config}.

Lemma emits_grr_worker_SendReply (P : GrrMessage → Prop) protobuf sid rid qid
    prio mt fastpoll ttl :
  P {| session_id := sid; request_id := qid; response_id := rid;
       priority := prio; message_type := mt; require_fastpoll := fastpoll;
       ttl := ttl; payload := protobuf |} →
  emits P (grr_worker_SendReply protobuf sid rid qid prio mt fastpoll ttl).
Proof. apply emits_SendReply_event. Qed.

Lemma emits_SendReply_with (P : GrrMessage → Prop) message protobuf mt prio :
  (∀ rid, P {| session_id := req_session_id message;
               request_id := req_request_id message; response_id := rid;
               priority := prio; message_type := mt;
               require_fastpoll := true; ttl := None;
               payload := protobuf |}) →
  emits P (SendReply_with message protobuf mt prio).
Proof.
  intros HP. unfold SendReply_with.
  apply emits_bind; [apply emits_get_world|]. intros w.
  apply emits_bind; [apply emits_grr_worker_SendReply, HP|].
  intros _. by apply emits_nothing.
Qed.

Lemma emits_grr_worker_Sleep (P : GrrMessage → Prop) (seconds : Z) :
  emits P (grr_worker_Sleep seconds).
Proof.
  unfold grr_worker_Sleep.
  apply emits_bind; [by apply emits_other_event|].
  intros _. apply emits_advance.
Qed.

Lemma emits_PARSER_UpdateConfig (P : GrrMessage → Prop) (keys : list string) :
  emits P (PARSER_UpdateConfig keys).
Proof.
  unfold PARSER_UpdateConfig.
  apply emits_bind; [by apply emits_other_event|]. intros _.
  apply emits_bind; [apply emits_get_world|]. intros w.
  destruct (PARSER_fault w keys); auto with emits.
Qed.

Lemma emits_append (P : GrrMessage → Prop) (l : list string) (x : string) :
  emits P (append l x).
Proof.
  unfold append. apply emits_bind; [by apply emits_other_event|].
  intros _. apply emits_mret.
Qed.

Lemma emits_BusyHang_spin (P : GrrMessage → Prop) (fuel : nat) (end_ : Q) :
  emits P (BusyHang_spin fuel end_).
Proof.
  induction fuel as [|fuel IH]; simpl; [apply emits_out_of_fuel|].
  apply emits_bind; [apply emits_time_time|]. intros now.
  destruct (Qlt_le_dec now end_); [exact IH|apply emits_mret].
Qed.

Lemma emits_UpdateConfig_step (P : GrrMessage → Prop) acc fv :
  emits P (UpdateConfig_step acc fv).
Proof.
  destruct acc as [updated_keys disallowed_fields], fv as [field value].
  unfold UpdateConfig_step. case_bool_decide; [|apply emits_mret].
  apply emits_bind; [apply emits_setattr_FLAGS|]. intros _. apply emits_mret.
Qed.

Lemma emits_pb_set_int (P : GrrMessage → Prop) (name : string) (value : Z) :
  emits P (pb_set_int name value).
Proof.
  unfold pb_set_int. destruct (int_fits _ _); [apply emits_mret|apply emits_raise].
Qed.

Lemma emits_pb_setattr (P : GrrMessage → Prop) msg field value :
  emits P (pb_setattr msg field value).
Proof.
  unfold pb_setattr.
  destruct (GRRConfig_check _ _); [apply emits_raise|apply emits_mret].
Qed.

Lemma emits_GetClientStats_response (P : GrrMessage → Prop) :
  emits P GetClientStats_response.
Proof.
  unfold GetClientStats_response.
  apply emits_bind; [apply emits_get_world|]. intros w.
  destruct (get_memory_info (host w)) as [rss vms].
  do 4 (apply emits_bind; [apply emits_pb_set_int|intros ?]).
  do 2 (apply emits_bind; [apply emits_long_micros|intros ?];
        apply emits_bind; [apply emits_pb_set_int|intros ?]).
  apply emits_bind.
  { apply emits_for_each. intros acc [[[timestamp user] system] percent].
    apply emits_bind; [apply emits_long_micros|]. intros t.
    apply emits_bind; [apply emits_pb_set_int|]. intros t'.
    apply emits_mret. }
  intros cpu. apply emits_bind; [|intros io; apply emits_mret].
  apply emits_for_each. intros acc [[timestamp read_bytes] write_bytes].
  apply emits_bind; [apply emits_long_micros|]. intros t.
  do 3 (apply emits_bind; [apply emits_pb_set_int|intros ?]).
  apply emits_mret.
Qed.

#[local] Hint Resolve emits_grr_worker_Sleep emits_PARSER_UpdateConfig
  emits_append emits_BusyHang_spin emits_UpdateConfig_step
  emits_GetClientStats_response : emits.

(** The actions that send nothing to the reply channel. *)

Lemma emits_Hang_Run (P : GrrMessage → Prop) (arg : DataBlob) :
  emits P (Hang_Run arg).
Proof. apply emits_time_sleep. Qed.

Lemma emits_BusyHang_Run (P : GrrMessage → Prop) (fuel : nat) (arg : DataBlob) :
  emits P (BusyHang_Run fuel arg).
Proof.
  unfold BusyHang_Run. apply emits_bind; [apply emits_time_time|].
  intros now. apply emits_BusyHang_spin.
Qed.

Lemma emits_Bloat_Run (P : GrrMessage → Prop) (arg : DataBlob) :
  emits P (Bloat_Run arg).
Proof.
  unfold Bloat_Run. apply emits_bind; [|intros l; apply emits_time_sleep].
  apply emits_for_each. intros l x. apply emits_append.
Qed.

Lemma emits_UpdateConfig_Run (P : GrrMessage → Prop) (arg : GRRConfig) :
  emits P (UpdateConfig_Run arg).
Proof.
  unfold UpdateConfig_Run. apply emits_bind.
  { apply emits_for_each. intros. apply emits_UpdateConfig_step. }
  intros [updated_keys disallowed_fields]. apply emits_bind.
  - case_bool_decide; [by apply emits_other_event|apply emits_mret].
  - intros _. apply emits_try_except;
      [apply emits_PARSER_UpdateConfig|apply emits_mret].
Qed.

(** The actions that answer the request. *)

Lemma emits_SendReply_to_requester message protobuf mt prio :
  emits (to_requester message mt prio)
        (SendReply_with message protobuf mt prio).
Proof. apply emits_SendReply_with. intros rid. by repeat split. Qed.

Lemma emits_Kill_Run message :
  emits (to_requester message STATUS (HIGH_PRIORITY + 1)) (Kill_Run message).
Proof.
  unfold Kill_Run.
  apply emits_bind; [apply emits_SendReply_to_requester|]. intros _.
  apply emits_bind; [apply emits_grr_worker_Sleep|]. intros _.
  apply emits_bind; [by apply emits_other_event|]. intros _.
  apply emits_os__exit.
Qed.

Lemma emits_GetConfig_Run message :
  emits (to_requester message MESSAGE NORMAL_PRIORITY) (GetConfig_Run message).
Proof.
  unfold GetConfig_Run. apply emits_bind.
  - apply emits_for_each. intros out field.
    apply emits_bind; [apply emits_hasattr_FLAGS|]. intros [|];
      [|apply emits_mret].
    apply emits_bind; [apply emits_getattr_FLAGS|]. intros v.
    apply emits_pb_setattr.
  - intros out. apply emits_SendReply_to_requester.
Qed.

Lemma emits_GetClientStats_Run message :
  emits (to_requester message MESSAGE NORMAL_PRIORITY)
        (GetClientStats_Run (GetClientStats_Send message)).
Proof.
  unfold GetClientStats_Run.
  apply emits_bind; [apply emits_GetClientStats_response|].
  intros response. apply emits_SendReply_to_requester.
Qed.

(** The actions that report to a well-known session. *)

Lemma emits_GetClientStatsAuto_Run :
  emits (to_well_known "W:Stats" None)
        (GetClientStats_Run GetClientStatsAuto_Send).
Proof.
  unfold GetClientStats_Run.
  apply emits_bind; [apply emits_GetClientStats_response|].
  intros response. apply emits_grr_worker_SendReply. by repeat split.
Qed.

Lemma emits_SendStartupInfo_Run (ttl : option Z) :
  emits (to_well_known "W:Startup" ttl) (SendStartupInfo_Run ttl).
Proof.
  unfold SendStartupInfo_Run.
  apply emits_bind; [apply emits_get_world|]. intros w.
  apply emits_bind; [apply emits_long_micros|]. intros booted.
  apply emits_bind; [apply emits_pb_set_int|]. intros booted'.
  apply emits_grr_worker_SendReply. by repeat split.
Qed.

Lemma emits_weaken {A} (P Q : GrrMessage → Prop) (m : M A) :
  (∀ msg, P msg → Q msg) → emits P m → emits Q m.
Proof.
  intros HPQ Hm w. destruct (Hm w) as (new & Ht & HP).
  exists new. split; [exact Ht|]. eapply Forall_impl; eauto.
Qed.

End ActionProperties.

(** ** UpdateConfig *)

Lemma apply_fields_cons flags f v fields :
  apply_fields flags ((f, v) :: fields) =
  apply_fields (if bool_decide (f ∈ UPDATEABLE_FIELDS)
                then <[f := v]> flags else flags) fields.
Proof. reflexivity. Qed.

Lemma allowed_cons_True f v fields :
  f ∈ UPDATEABLE_FIELDS → allowed ((f, v) :: fields) = f :: allowed fields.
Proof. intros. unfold allowed. simpl. by rewrite filter_cons_True. Qed.

Lemma allowed_cons_False f v fields :
  f ∉ UPDATEABLE_FIELDS → allowed ((f, v) :: fields) = allowed fields.
Proof. intros. unfold allowed. simpl. by rewrite filter_cons_False. Qed.

Lemma restricted_cons_True f v fields :
  f ∉ UPDATEABLE_FIELDS →
  restricted ((f, v) :: fields) = f :: restricted fields.
Proof. intros. unfold restricted. simpl. by rewrite filter_cons_True. Qed.

Lemma restricted_cons_False f v fields :
  f ∈ UPDATEABLE_FIELDS → restricted ((f, v) :: fields) = restricted fields.
Proof.
  intros. unfold restricted. simpl. rewrite filter_cons_False; [done|tauto].
Qed.

Lemma apply_fields_not_allowed flags fields (name : string) :
  name ∉ UPDATEABLE_FIELDS → apply_fields flags fields !! name = flags !! name.
Proof.
  intros Hn. revert flags.
  induction fields as [|[f v] fields IH]; intros flags; [done|].
  unfold apply_fields in *. simpl. rewrite IH.
  case_bool_decide; [|done].
  apply lookup_insert_ne. intros ->. contradiction.
Qed.

Lemma apply_fields_not_in flags fields (name : string) :
  name ∉ fields.*1 → apply_fields flags fields !! name = flags !! name.
Proof.
  revert flags.
  induction fields as [|[f v] fields IH]; intros flags Hn; [done|].
  simpl in Hn. apply not_elem_of_cons in Hn as [Hne Hn].
  unfold apply_fields in *. simpl. rewrite IH by done.
  case_bool_decide; [|done].
  by apply lookup_insert_ne.
Qed.

Lemma apply_fields_in flags fields (name : string) (value : PyValue) :
  NoDup fields.*1 → (name, value) ∈ fields → name ∈ UPDATEABLE_FIELDS →
  apply_fields flags fields !! name = Some value.
Proof.
  revert flags.
  induction fields as [|[f v] fields IH]; intros flags Hnd Hin Hal.
  - by apply elem_of_nil in Hin.
  - simpl in Hnd. apply NoDup_cons in Hnd as [Hf Hnd].
    apply elem_of_cons in Hin as [Heq|Hin].
    + injection Heq as -> ->.
      change (apply_fields flags ((f, v) :: fields))
        with (apply_fields
                (if bool_decide (f ∈ UPDATEABLE_FIELDS)
                 then <[f := v]> flags else flags) fields).
      rewrite apply_fields_not_in by done.
      rewrite bool_decide_eq_true_2 by done.
      apply lookup_insert_eq.
    + change (apply_fields flags ((f, v) :: fields))
        with (apply_fields
                (if bool_decide (f ∈ UPDATEABLE_FIELDS)
                 then <[f := v]> flags else flags) fields).
      by apply IH.
Qed.

Lemma apply_fields_Permutation flags (fields fields' : list (string * PyValue)) :
  NoDup fields.*1 → fields' ≡ₚ fields →
  apply_fields flags fields' = apply_fields flags fields.
Proof.
  intros Hnd Hp. apply map_eq. intros name.
  assert (NoDup fields'.*1) as Hnd' by (by rewrite Hp).
  destruct (decide (name ∈ UPDATEABLE_FIELDS)) as [Hal|Hal];
    [|by rewrite !apply_fields_not_allowed].
  destruct (decide (name ∈ fields.*1)) as [Hin|Hin].
  - apply list_elem_of_fmap in Hin as ([f v] & -> & Hin). simpl.
    rewrite (apply_fields_in _ fields f v) by done.
    apply apply_fields_in; [done| |done]. by rewrite Hp.
  - rewrite (apply_fields_not_in _ fields) by done.
    apply apply_fields_not_in. by rewrite Hp.
Qed.

Section UpdateConfigProperties.
Context {pb : jobs_pb2} {cc : client_config}.

Lemma UpdateConfig_step_allowed updated_keys disallowed_fields field value w :
  field ∈ UPDATEABLE_FIELDS →
  UpdateConfig_step (updated_keys, disallowed_fields) (field, value) w =
  (Returned (updated_keys ++ [field], disallowed_fields),
   with_FLAGS (<[field := value]> (FLAGS w)) w).
Proof.
  intros Hal. unfold UpdateConfig_step.
  by rewrite bool_decide_eq_true_2.
Qed.

Lemma UpdateConfig_step_restricted updated_keys disallowed_fields field value w :
  field ∉ UPDATEABLE_FIELDS →
  UpdateConfig_step (updated_keys, disallowed_fields) (field, value) w =
  (Returned (updated_keys, disallowed_fields ++ [field]), w).
Proof.
  intros Hal. unfold UpdateConfig_step.
  by rewrite bool_decide_eq_false_2.
Qed.

Lemma UpdateConfig_loop (fields : list (string * PyValue))
    (updated_keys disallowed_fields : list string) (w : World) :
  for_each fields UpdateConfig_step (updated_keys, disallowed_fields) w =
  (Returned (updated_keys ++ allowed fields,
             disallowed_fields ++ restricted fields),
   with_FLAGS (apply_fields (FLAGS w) fields) w).
Proof.
  revert updated_keys disallowed_fields w.
  induction fields as [|[f v] fields IH]; intros u d w.
  - simpl. unfold allowed, restricted. simpl.
    by rewrite !app_nil_r, with_FLAGS_FLAGS.
  - rewrite for_each_cons, bind_unfold.
    destruct (decide (f ∈ UPDATEABLE_FIELDS)) as [Hal|Hal].
    + rewrite UpdateConfig_step_allowed, IH by done.
      rewrite allowed_cons_True, restricted_cons_False, apply_fields_cons
        by done.
      rewrite bool_decide_eq_true_2 by done.
      by rewrite <-app_assoc.
    + rewrite UpdateConfig_step_restricted, IH by done.
      rewrite allowed_cons_False, restricted_cons_True, apply_fields_cons
        by done.
      rewrite bool_decide_eq_false_2 by done.
      by rewrite <-app_assoc.
Qed.

Lemma PARSER_UpdateConfig_eq (keys : list string) (w : World) :
  PARSER_UpdateConfig keys w =
  (match PARSER_fault w keys with
   | None => Returned ()
   | Some e => Raised e
   end,
   with_trace (trace w ++ [EvPersist keys]) w).
Proof.
  unfold PARSER_UpdateConfig. rewrite bind_unfold. cbn.
  rewrite bind_unfold. cbn.
  by destruct (PARSER_fault w keys).
Qed.

(** [UpdateConfig.Run] in one step. *)
Lemma UpdateConfig_Run_eq (arg : GRRConfig) (w : World) :
  UpdateConfig_Run arg w =
  (match PARSER_fault w (allowed arg) with
   | None => Returned ()
   | Some e => if IOError_or_OSError e then Returned () else Raised e
   end,
   with_trace (trace w ++ warnings arg ++ [EvPersist (allowed arg)])
     (with_FLAGS (apply_fields (FLAGS w) arg) w)).
Proof.
  unfold UpdateConfig_Run, ListFields.
  rewrite bind_unfold, UpdateConfig_loop. cbn beta iota.
  rewrite !app_nil_l, bind_unfold. unfold warnings.
  destruct (bool_decide (restricted arg ≠ [])); cbn.
  - unfold try_except. rewrite PARSER_UpdateConfig_eq. cbn.
    rewrite <-app_assoc.
    destruct (PARSER_fault w (allowed arg)) as [e|]; [|done].
    by destruct (IOError_or_OSError e).
  - unfold try_except. rewrite PARSER_UpdateConfig_eq. cbn.
    destruct (PARSER_fault w (allowed arg)) as [e|]; [|done].
    by destruct (IOError_or_OSError e).
Qed.

End UpdateConfigProperties.

(** ** GetConfig *)

Lemma pb_getattr_put (msg : GRRConfig) (field name : string)
    (value : PyValue) :
  pb_getattr (pb_put msg field value) name =
  if decide (field = name) then Some value else pb_getattr msg name.
Proof.
  induction msg as [|[f v] msg IH]; simpl.
  - by destruct (decide (field = name)).
  - destruct (decide (f = field)) as [->|Hf]; simpl.
    + by destruct (decide (field = name)).
    + rewrite IH. destruct (decide (f = name)) as [->|]; [|done].
      by rewrite decide_False.
Qed.



Section GetConfigProperties.
Context {pb : jobs_pb2} {cc : client_config}.

Lemma SendReply_eq message protobuf (w : World) :
  SendReply message protobuf w =
  (Returned (),
   with_response_id (self_response_id w + 1)
     (with_trace (trace w ++ [EvSendReply (reply_to message w protobuf)]) w)).
Proof. reflexivity. Qed.

Lemma GetConfig_loop (fields : list string) (out : GRRConfig) (w : World) :
  for_each fields
    (λ out field,
       has ← hasattr_FLAGS field;
       if has : bool then
         value ← getattr_FLAGS field;
         pb_setattr out field value
       else mret out) out w =
  (result (read_flags (FLAGS w) fields out), w).
Proof.
  revert out. induction fields as [|f fields IH]; intros out; [done|].
  rewrite for_each_cons, bind_unfold, bind_unfold.
  unfold hasattr_FLAGS, getattr_FLAGS. cbn [read_flags].
  destruct (FLAGS w !! f) as [v|] eqn:E.
  - rewrite bool_decide_eq_true_2 by eauto.
    rewrite bind_unfold, E. cbn beta iota. unfold pb_setattr.
    destruct (GRRConfig_check f v) as [e|]; [done|]. apply IH.
  - rewrite bool_decide_eq_false_2 by (by intros [? ?]).
    apply IH.
Qed.

Lemma read_flags_inr flags (fields : list string) (out out' : GRRConfig) :
  read_flags flags fields out = inr out' →
  out' = foldl (read_flag flags) out fields ∧
  ∀ field value,
    field ∈ fields → flags !! field = Some value →
    GRRConfig_check field value = None.
Proof.
  revert out. induction fields as [|f fields IH]; intros out Hr.
  - injection Hr as <-. split; [done|]. by intros ? ? ?%elem_of_nil.
  - cbn [read_flags foldl] in *. unfold read_flag at 2.
    destruct (flags !! f) as [v|] eqn:E.
    + destruct (GRRConfig_check f v) as [e|] eqn:Ec; [done|].
      destruct (IH _ Hr) as [-> Hfit]. split; [done|].
      intros field value [->|Hin]%elem_of_cons Hflag; [congruence|eauto].
    + destruct (IH _ Hr) as [-> Hfit]. split; [done|].
      intros field value [->|Hin]%elem_of_cons Hflag; [congruence|eauto].
Qed.

Lemma read_flags_fit flags (fields : list string) (out : GRRConfig) :
  (∀ field value,
     field ∈ fields → flags !! field = Some value →
     GRRConfig_check field value = None) →
  read_flags flags fields out = inr (foldl (read_flag flags) out fields).
Proof.
  revert out. induction fields as [|f fields IH]; intros out Hfit; [done|].
  cbn [read_flags foldl]. unfold read_flag at 2.
  destruct (flags !! f) as [v|] eqn:E.
  - rewrite (Hfit f v) by (done || apply list_elem_of_here).
    apply IH. intros field value Hin. by apply Hfit, list_elem_of_further.
  - apply IH. intros field value Hin. by apply Hfit, list_elem_of_further.
Qed.

(** [GetConfig.Run] in one step. *)
Lemma GetConfig_Run_eq (message : Request) (w : World) :
  GetConfig_Run message w =
  match read_flags (FLAGS w) GRRConfig_fields [] with
  | inl e => (Raised e, w)
  | inr out =>
      (Returned (),
       with_response_id (self_response_id w + 1)
         (with_trace
            (trace w ++ [EvSendReply (reply_to message w (PGRRConfig out))])
            w))
  end.
Proof.
  unfold GetConfig_Run. rewrite bind_unfold, GetConfig_loop.
  destruct (read_flags _ _ _); [done|apply SendReply_eq].
Qed.



End GetConfigProperties.

(** ** Hang, BusyHang and Bloat *)

Lemma py_or_zero (d : Z) : py_or 0 d = d.
Proof. reflexivity. Qed.

Lemma py_or_nonzero (x d : Z) : x ≠ 0 → py_or x d = x.
Proof. intros Hx. unfold py_or. by destruct (Z.eqb_spec x 0). Qed.

Lemma string_length_app (s1 s2 : string) :
  String.length (s1 +:+ s2) = (String.length s1 + String.length s2)%nat.
Proof. induction s1 as [|c s1 IH]; simpl; [done|by rewrite IH]. Qed.

Lemma str_repeat_length (s : string) (n : nat) :
  String.length (str_repeat s n) = (n * String.length s)%nat.
Proof.
  induction n as [|n IH]; simpl; [done|].
  by rewrite string_length_app, IH.
Qed.

Lemma py_str_mul_length (s : string) (n : Z) :
  Z.of_nat (String.length (py_str_mul s n)) =
  Z.max 0 n * Z.of_nat (String.length s).
Proof. unfold py_str_mul. rewrite str_repeat_length. lia. Qed.

(** One megabyte of ["X"]. *)
Lemma megabyte_length :
  Z.of_nat (String.length (py_str_mul "X" 1048576)) = 1048576.
Proof. rewrite py_str_mul_length. reflexivity. Qed.

Lemma time_sleep_eq (seconds : Z) (w : World) :
  0 ≤ seconds →
  time_sleep seconds w =
  (Returned (),
   with_clock (clock w + inject_Z seconds)%Q
     (with_trace (trace w ++ [EvSleep seconds]) w)).
Proof.
  intros Hs. unfold time_sleep.
  destruct (Z.ltb_spec seconds 0); [lia|]. reflexivity.
Qed.

Lemma append_loop {A} (xs : list A) (x : string) (l : list string) (w : World) :
  for_each xs (λ l _, append l x) l w =
  (Returned (l ++ replicate (length xs) x),
   with_trace
     (trace w ++
      replicate (length xs) (EvAlloc (Z.of_nat (String.length x)))) w).
Proof.
  revert l w. induction xs as [|y xs IH]; intros l w.
  - simpl. rewrite !app_nil_r. by destruct w.
  - rewrite for_each_cons, bind_unfold.
    change (append l x w)
      with (Returned (l ++ [x]),
            with_trace
              (trace w ++ [EvAlloc (Z.of_nat (String.length x))]) w).
    cbn beta iota. rewrite IH. unfold with_trace. cbn.
    by rewrite <-!app_assoc.
Qed.

(** The busy-wait loop leaves at the first reading of the clock that is
    not before [end_], given fuel for the readings before it. *)
Lemma BusyHang_spin_returns (fuel : nat) (end_ : Q) (w : World) :
  (0 < tick w)%Q →
  (clock w - tick w < end_)%Q →
  (end_ <= clock w + inject_Z (Z.of_nat fuel) * tick w)%Q →
  ∃ last : Q,
    BusyHang_spin (S fuel) end_ w = (Returned (), with_clock (last + tick w) w)
    ∧ (end_ <= last)%Q ∧ (last < end_ + tick w)%Q.
Proof.
  revert w. induction fuel as [|fuel IH]; intros w Htick Hprev Hfuel.
  - exists (clock w). cbn [BusyHang_spin]. rewrite bind_unfold.
    unfold time_time. cbn beta iota.
    destruct (Qlt_le_dec (clock w) end_) as [Hlt|Hle].
    + exfalso. change (inject_Z (Z.of_nat 0)) with 0%Q in Hfuel. lra.
    + split; [reflexivity|]. split; [done|lra].
  - change (BusyHang_spin (S (S fuel)) end_)
      with (now ← time_time;
            if Qlt_le_dec now end_ then BusyHang_spin (S fuel) end_
            else mret ()).
    rewrite bind_unfold. unfold time_time. cbn beta iota.
    destruct (Qlt_le_dec (clock w) end_) as [Hlt|Hle].
    + destruct (IH (with_clock (clock w + tick w) w)) as (last & Hrun & H1 & H2).
      * exact Htick.
      * cbn [clock tick with_clock]. lra.
      * cbn [clock tick with_clock].
        rewrite Nat2Z.inj_succ, <-Z.add_1_r, inject_Z_plus in Hfuel.
        change (inject_Z 1) with 1%Q in Hfuel.
        generalize dependent (inject_Z (Z.of_nat fuel)). intros a _ Hfuel.
        lra.
      * exists last. split; [exact Hrun|]. split; [exact H1|exact H2].
    + exists (clock w). split; [reflexivity|]. split; [done|lra].
Qed.

Lemma BusyHang_spin_more_fuel (fuel fuel' : nat) (end_ : Q) (w w' : World) :
  BusyHang_spin fuel end_ w = (Returned (), w') → (fuel ≤ fuel')%nat →
  BusyHang_spin fuel' end_ w = (Returned (), w').
Proof.
  revert fuel' w. induction fuel as [|fuel IH]; intros fuel' w Hrun Hle.
  - cbv in Hrun. discriminate.
  - destruct fuel' as [|fuel']; [lia|].
    cbn [BusyHang_spin] in *. rewrite bind_unfold in *.
    unfold time_time in *. cbn beta iota in *.
    destruct (Qlt_le_dec (clock w) end_); [|exact Hrun].
    apply IH; [exact Hrun|lia].
Qed.

(** Enough fuel for a wait of [d] seconds: [d] times the denominator of
    [tick] readings. *)
Lemma enough_fuel (d : Z) (t : Q) :
  (0 < t)%Q → 0 ≤ d →
  (inject_Z d <= inject_Z (Z.of_nat (Z.to_nat (d * Z.pos (Qden t)))) * t)%Q.
Proof.
  intros Ht Hd. destruct t as [p q]. unfold Qlt in Ht. simpl in Ht.
  rewrite Z2Nat.id by lia.
  unfold Qle, inject_Z, Qmult. simpl. nia.
Qed.

(** ** GetClientStats *)

Lemma reads_only_mret {A} (a : A) (w : World) : reads_only (mret a) w.
Proof. by exists (inr a). Qed.

Lemma reads_only_get_world (w : World) : reads_only get_world w.
Proof. by exists (inr w). Qed.

Lemma reads_only_long_micros (x : pyfloat) (w : World) :
  reads_only (long_micros x) w.
Proof.
  unfold long_micros.
  destruct (long _) as [e|z]; [by exists (inl e)|by exists (inr z)].
Qed.

Lemma reads_only_bind {A B} (m : M A) (k : A → M B) (w : World) :
  reads_only m w → (∀ a, reads_only (k a) w) → reads_only (m ≫= k) w.
Proof.
  intros Hm Hk. unfold reads_only. rewrite bind_unfold.
  destruct Hm as ([e|a] & ->); simpl; [by exists (inl e)|apply Hk].
Qed.

Lemma reads_only_for_each {A S} (xs : list A) (body : S → A → M S) (s : S)
    (w : World) :
  (∀ s x, reads_only (body s x) w) → reads_only (for_each xs body s) w.
Proof.
  intros Hb. revert s. induction xs as [|x xs IH]; intros s.
  - apply reads_only_mret.
  - rewrite for_each_cons. apply reads_only_bind; [apply Hb|exact IH].
Qed.

Lemma reads_only_pb_set_int {pb : jobs_pb2} (name : string) (value : Z)
    (w : World) :
  reads_only (pb_set_int name value) w.
Proof.
  unfold pb_set_int.
  destruct (int_fits _ _); [by exists (inr value)|by exists (inl ValueError)].
Qed.

Lemma reads_only_GetClientStats_response {pb : jobs_pb2} (w : World) :
  reads_only GetClientStats_response w.
Proof.
  unfold GetClientStats_response.
  apply reads_only_bind; [apply reads_only_get_world|]. intros w0.
  destruct (get_memory_info (host w0)) as [rss vms].
  do 4 (apply reads_only_bind; [apply reads_only_pb_set_int|intros ?]).
  do 2 (apply reads_only_bind; [apply reads_only_long_micros|intros ?];
        apply reads_only_bind; [apply reads_only_pb_set_int|intros ?]).
  apply reads_only_bind.
  { apply reads_only_for_each. intros acc [[[timestamp user] system] percent].
    apply reads_only_bind; [apply reads_only_long_micros|]. intros t.
    apply reads_only_bind; [apply reads_only_pb_set_int|]. intros t'.
    apply reads_only_mret. }
  intros cpu. apply reads_only_bind; [|intros io; apply reads_only_mret].
  apply reads_only_for_each. intros acc [[timestamp read_bytes] write_bytes].
  apply reads_only_bind; [apply reads_only_long_micros|]. intros t.
  do 3 (apply reads_only_bind; [apply reads_only_pb_set_int|intros ?]).
  apply reads_only_mret.
Qed.

(** ** Runs on the sample world *)

Example long_truncates_towards_zero :
  long 2.75%float = inr 2 ∧ long (-2.75)%float = inr (-2) ∧
  long 0%float = inr 0 ∧ long infinity = inl OverflowError ∧
  long nan = inl ValueError.
Proof. by vm_compute. Qed.

Example long_of_a_timestamp :
  long (1351700010.5 * 1e6)%float = inr 1351700010500000.
Proof. by vm_compute. Qed.

Example py_or_examples :
  py_or 0 6000 = 6000 ∧ py_or 2 6000 = 2 ∧ py_or (-3) 5 = -3.
Proof. by vm_compute. Qed.

Example py_str_mul_examples :
  py_str_mul "X" 3 = "XXX" ∧ py_str_mul "X" 0 = "" ∧ py_str_mul "X" (-2) = "".
Proof. by vm_compute. Qed.

Example join_example :
  join "," ["camode"; "arbitrary_field"] = "camode,arbitrary_field".
Proof. reflexivity. Qed.

Example Kill_on_the_sample_world :
  let r := @Kill_Run sample_jobs_pb2 sample_request sample_world in
  r.1 = Exited 242 ∧
  trace r.2 =
    [EvSendReply
       {| session_id := "F:12345"; request_id := 7; response_id := 1;
          priority := 3; message_type := STATUS; require_fastpoll := true;
          ttl := None; payload := PGrrStatus {| status := OK |} |};
     EvWorkerSleep 10; EvInfo "Dying on request."].
Proof. by vm_compute. Qed.

Example UpdateConfig_on_the_sample_world :
  let r := UpdateConfig_Run scenario_request sample_world in
  r.1 = Returned () ∧
  trace r.2 =
    [EvWarning
       "Received an update request for restricted field(s) arbitrary_field.";
     EvPersist ["poll_min"]] ∧
  FLAGS r.2 !! "poll_min" = Some (VInt 5) ∧
  FLAGS r.2 !! "camode" = Some (VStr "TEST") ∧
  FLAGS r.2 !! "arbitrary_field" = None.
Proof. by vm_compute. Qed.

Example UpdateConfig_with_a_storage_that_raises_something_else :
  (UpdateConfig_Run scenario_request
     {| FLAGS := FLAGS sample_world; self_response_id := 1; clock := 0;
        tick := 1 # 4;
        PARSER_fault := λ _, Some (PyException "ConfigParser.Error");
        host := sample_host; trace := [] |}).1
  = Raised (PyException "ConfigParser.Error").
Proof. by vm_compute. Qed.

Example GetConfig_on_the_sample_world :
  replies (trace (@GetConfig_Run sample_jobs_pb2 sample_request
                    sample_world).2) =
  [{| session_id := "F:12345"; request_id := 7; response_id := 1;
      priority := 1; message_type := MESSAGE; require_fastpoll := true;
      ttl := None;
      payload := PGRRConfig [("poll_min", VInt 60); ("camode", VStr "TEST")] |}].
Proof. by vm_compute. Qed.

Example GetConfig_with_a_flag_of_the_wrong_type :
  let w := with_FLAGS (<["location" := VInt 7]> (FLAGS sample_world))
             sample_world in
  @GetConfig_Run sample_jobs_pb2 sample_request w
    = (Raised (PyException "TypeError"), w).
Proof. by vm_compute. Qed.

Example GetConfig_with_a_flag_out_of_range :
  let w := with_FLAGS (<["max_post_size" := VInt (2 ^ 64)]> (FLAGS sample_world))
             sample_world in
  @GetConfig_Run sample_jobs_pb2 sample_request w = (Raised ValueError, w).
Proof. by vm_compute. Qed.

Example SendStartupInfo_with_a_boot_time_out_of_range :
  let far := {| gethostname := "client.example.org";
                uname := uname sample_host;
                get_memory_info := (20480000, 104857600);
                get_memory_percent := 1.5%float;
                proc_create_time := 1351700000.25%float;
                BOOT_TIME := 2e13%float;
                STATS_Get := λ _, 0;
                collector_cpu_samples := [];
                collector_io_samples := [] |} in
  let w := {| FLAGS := FLAGS sample_world; self_response_id := 1;
              clock := 0; tick := 1; PARSER_fault := λ _, None; host := far;
              trace := [] |} in
  (@Run sample_jobs_pb2 sample_client_config 0 SendStartupInfo sample_request
     None w).1 = Raised ValueError ∧
  (@Run sample_jobs_pb2 sample_client_config 0 GetClientStatsAuto
     sample_request () w).1 = Raised ValueError.
Proof. by vm_compute. Qed.

Example BusyHang_on_the_sample_world :
  let two := {| DataBlob_integer := Some 2; DataBlob_string := None |} in
  (BusyHang_Run 7 two sample_world).1 = OutOfFuel ∧
  (BusyHang_Run 8 two sample_world).1 = Returned () ∧
  (clock (BusyHang_Run 8 two sample_world).2 == 9 # 4)%Q ∧
  trace (BusyHang_Run 8 two sample_world).2 = [].
Proof. by vm_compute. Qed.

Example Hang_with_a_negative_argument :
  Hang_Run {| DataBlob_integer := Some (-1); DataBlob_string := None |}
    sample_world = (Raised IOError, sample_world).
Proof. reflexivity. Qed.

(** * The claims *)

(** Membership in explicit lists, and decidable facts about them. *)
Ltac in_list :=
  repeat first [apply list_elem_of_here | apply list_elem_of_further].

Ltac by_decision := by apply (bool_decide_unpack _).

(** C1. For every UpdateConfig request whose fields are distinct, each field
    on the whitelist (compression, foreman_check_frequency, location,
    max_post_size, max_out_queue, poll_min, poll_max, poll_slew, rss_max,
    verbose) has, after the run, exactly the value the request gives it;
    a flag whose name is not on the whitelist, or not in the request, keeps
    the value it had; all the whitelisted names of the request, also those
    after a refused one, reach the persistence call, and the run returns
    when the storage accepts the write; and the resulting flags do not
    depend on the order of the fields in the request. *)
Theorem UpdateConfig_applies_whitelisted_fields_only
    (arg : GRRConfig) (w : World) :
  NoDup arg.*1 →
  UPDATEABLE_FIELDS =
    ["compression"; "foreman_check_frequency"; "location"; "max_post_size";
     "max_out_queue"; "poll_min"; "poll_max"; "poll_slew"; "rss_max";
     "verbose"] ∧
  (∀ field value,
     (field, value) ∈ arg → field ∈ UPDATEABLE_FIELDS →
     FLAGS (UpdateConfig_Run arg w).2 !! field = Some value) ∧
  (∀ field,
     field ∉ UPDATEABLE_FIELDS →
     FLAGS (UpdateConfig_Run arg w).2 !! field = FLAGS w !! field) ∧
  (∀ field,
     field ∉ arg.*1 →
     FLAGS (UpdateConfig_Run arg w).2 !! field = FLAGS w !! field) ∧
  trace (UpdateConfig_Run arg w).2 =
    trace w ++ warnings arg ++ [EvPersist (allowed arg)] ∧
  (∀ field, field ∈ allowed arg ↔ field ∈ arg.*1 ∧ field ∈ UPDATEABLE_FIELDS) ∧
  (PARSER_fault w (allowed arg) = None →
   (UpdateConfig_Run arg w).1 = Returned ()) ∧
  (∀ arg',
     arg' ≡ₚ arg →
     FLAGS (UpdateConfig_Run arg' w).2 = FLAGS (UpdateConfig_Run arg w).2).
Proof.
  intros Hnd. rewrite UpdateConfig_Run_eq. cbn [fst snd].
  split; [reflexivity|].
  split; [intros field value Hin Hal; by apply apply_fields_in|].
  split; [intros field Hal; by apply apply_fields_not_allowed|].
  split; [intros field Hin; by apply apply_fields_not_in|].
  split; [reflexivity|].
  split.
  { intros field. unfold allowed. rewrite list_elem_of_filter. tauto. }
  split; [by intros ->|].
  intros arg' Hp. rewrite UpdateConfig_Run_eq. cbn [fst snd].
  cbn. by apply apply_fields_Permutation.
Qed.

Lemma UpdateConfig_applies_whitelisted_fields_only_witness :
  NoDup mixed_request.*1 ∧
  FLAGS (UpdateConfig_Run mixed_request sample_world).2 !! "poll_min"
    = Some (VInt 5) ∧
  FLAGS (UpdateConfig_Run mixed_request sample_world).2 !! "arbitrary_field"
    = None.
Proof.
  assert (NoDup mixed_request.*1) as Hnd by by_decision.
  destruct (UpdateConfig_applies_whitelisted_fields_only
              mixed_request sample_world Hnd)
    as (_ & Happlied & Hrefused & _).
  split; [exact Hnd|]. split.
  - apply Happlied; [in_list|by_decision].
  - rewrite Hrefused; [reflexivity|by_decision].
Defined.





(** C3. For every UpdateConfig request, once the loop has applied the
    allowed fields, the persistence call is made, once and as the last
    effect of the run, with exactly the names the loop applied; and when
    that call fails with IOError or OSError the run still returns, hands
    nothing to the reply channel, and leaves the flags exactly as the loop
    set them. *)
Theorem UpdateConfig_swallows_persistence_failure (arg : GRRConfig) (w : World) :
  ∃ updated_keys disallowed_fields w1 log,
    for_each (ListFields arg) UpdateConfig_step ([], []) w
      = (Returned (updated_keys, disallowed_fields), w1) ∧
    updated_keys = allowed arg ∧
    trace w1 = trace w ∧
    trace (UpdateConfig_Run arg w).2 =
      trace w ++ log ++ [EvPersist updated_keys] ∧
    Forall (λ ev, ∃ line, ev = EvWarning line) log ∧
    ∀ e,
      PARSER_fault w updated_keys = Some e → e = IOError ∨ e = OSError →
      (UpdateConfig_Run arg w).1 = Returned () ∧
      replies (trace (UpdateConfig_Run arg w).2) = replies (trace w) ∧
      FLAGS (UpdateConfig_Run arg w).2 = FLAGS w1.
Proof.
  eexists _, _, _, (warnings arg).
  split; [unfold ListFields; apply UpdateConfig_loop|].
  rewrite UpdateConfig_Run_eq. cbn [fst snd].
  split; [reflexivity|]. split; [reflexivity|]. split; [reflexivity|].
  split.
  { unfold warnings. case_bool_decide; repeat constructor. by eexists. }
  intros e He Hclass. cbn [app] in He. rewrite He.
  split; [by destruct Hclass as [-> | ->]|].
  split; [|reflexivity].
  cbn. rewrite !replies_app. unfold warnings.
  case_bool_decide; cbn; by rewrite app_nil_r.
Qed.

Lemma UpdateConfig_swallows_persistence_failure_witness :
  PARSER_fault readonly_world (allowed scenario_request) = Some IOError ∧
  (UpdateConfig_Run scenario_request readonly_world).1 = Returned () ∧
  replies (trace (UpdateConfig_Run scenario_request readonly_world).2) = [] ∧
  FLAGS (UpdateConfig_Run scenario_request readonly_world).2 !! "poll_min"
    = Some (VInt 5).
Proof.
  destruct (UpdateConfig_swallows_persistence_failure
              scenario_request readonly_world)
    as (updated_keys & disallowed_fields & w1 & log & Hloop & -> & _ & _ & _
        & Hfail).
  destruct (Hfail IOError) as (Hret & Hreplies & Hflags);
    [reflexivity|by left|].
  split; [reflexivity|]. split; [exact Hret|]. split; [exact Hreplies|].
  rewrite Hflags. injection Hloop as _ <-. reflexivity.
Defined.

(** C4. Whatever the request and the world, Kill hands exactly one message
    to the reply channel, a STATUS of priority HIGH_PRIORITY + 1 addressed
    to the requester, then waits the fixed ten seconds, logs, and exits the
    process with the fixed code 242, which is not zero. *)
Theorem Kill_sends_one_status_then_exits {pb : jobs_pb2}
    (message : Request) (w : World) :
  ∃ m w',
    Kill_Run message w = (Exited 242, w') ∧
    trace w' =
      trace w ++
      [EvSendReply m; EvWorkerSleep 10; EvInfo "Dying on request."] ∧
    replies (trace w') = replies (trace w) ++ [m] ∧
    message_type m = STATUS ∧
    priority m = HIGH_PRIORITY + 1 ∧
    payload m = PGrrStatus {| status := OK |} ∧
    session_id m = req_session_id message ∧
    request_id m = req_request_id message ∧
    clock w' = (clock w + inject_Z 10)%Q ∧
    242 ≠ 0.
Proof.
  eexists _, _. split; [reflexivity|]. cbn.
  split; [by rewrite <-!app_assoc|].
  split; [by rewrite !replies_app, <-!app_assoc|].
  by repeat split.
Qed.

(** C9. For every input, Echo returns after handing exactly one message to
    the reply channel, addressed to the requester, whose payload is the
    input itself. *)
Theorem Echo_replies_with_its_input {pb : jobs_pb2}
    (message : Request) (args : PrintStr) (w : World) :
  ∃ m w',
    Echo_Run message args w = (Returned (), w') ∧
    trace w' = trace w ++ [EvSendReply m] ∧
    replies (trace w') = replies (trace w) ++ [m] ∧
    payload m = PPrintStr args ∧
    session_id m = req_session_id message ∧
    request_id m = req_request_id message.
Proof.
  eexists _, _. split; [reflexivity|]. cbn.
  split; [reflexivity|].
  split; [by rewrite replies_app|].
  by repeat split.
Qed.

(** ** The reports to well-known sessions *)

Section WellKnown.
Context {pb : jobs_pb2} {cc : client_config}.

Lemma SendStartupInfo_Run_eq (ttl : option Z) (w : World) :
  SendStartupInfo_Run ttl w =
  match long (BOOT_TIME (host w) * 1e6)%float with
  | inl e => (Raised e, w)
  | inr booted =>
      if int_fits (int_field "StartupInfo.boot_time") booted then
        (Returned (),
         with_trace (trace w ++ [EvSendReply (startup_message ttl booted)]) w)
      else (Raised ValueError, w)
  end.
Proof.
  unfold SendStartupInfo_Run. rewrite bind_unfold.
  cbn beta iota delta [get_world].
  rewrite bind_unfold. unfold long_micros.
  destruct (long _) as [e|booted]; [done|].
  rewrite mret_eq. cbn beta iota.
  rewrite bind_unfold. unfold pb_set_int.
  by destruct (int_fits _ booted).
Qed.

Lemma GetClientStatsAuto_Run_eq (w : World) (r : Exn + ClientStats) :
  GetClientStats_response w = (result r, w) →
  GetClientStats_Run GetClientStatsAuto_Send w =
  match r with
  | inl e => (Raised e, w)
  | inr response =>
      (Returned (),
       with_trace (trace w ++ [EvSendReply (stats_message response)]) w)
  end.
Proof.
  intros Hr. unfold GetClientStats_Run. rewrite bind_unfold, Hr.
  by destruct r.
Qed.

Lemma GetClientStats_Run_eq (message : Request) (w : World)
    (r : Exn + ClientStats) :
  GetClientStats_response w = (result r, w) →
  GetClientStats_Run (GetClientStats_Send message) w =
  match r with
  | inl e => (Raised e, w)
  | inr response =>
      (Returned (),
       with_response_id (self_response_id w + 1)
         (with_trace
            (trace w ++
             [EvSendReply (reply_to message w (PClientStats response))]) w))
  end.
Proof.
  intros Hr. unfold GetClientStats_Run. rewrite bind_unfold, Hr.
  by destruct r.
Qed.

End WellKnown.

(** C5. Whatever request triggers them and whatever the world,
    SendStartupInfo and GetClientStatsAuto either raise before they send
    (a boot time, a timestamp or a counter that does not convert or does
    not fit its field) or return
    after handing over exactly one message; that message has request id 0,
    response id 0 and the session id of its channel, "W:Startup" or
    "W:Stats"; SendStartupInfo returns exactly when the boot time converts
    to a number of microseconds that fits the boot_time field; and neither
    run depends on the request that triggers it. *)
Theorem well_known_messages_carry_reserved_addressing
    {pb : jobs_pb2} {cc : client_config}
    (fuel : nat) (message : Request) (ttl : option Z) (w : World) :
  ((∃ e, Run fuel SendStartupInfo message ttl w = (Raised e, w)) ∨
   (∃ m,
      Run fuel SendStartupInfo message ttl w =
        (Returned (), with_trace (trace w ++ [EvSendReply m]) w) ∧
      session_id m = "W:Startup" ∧ request_id m = 0 ∧ response_id m = 0)) ∧
  ((Run fuel SendStartupInfo message ttl w).1 = Returned () ↔
   ∃ booted,
     long (BOOT_TIME (host w) * 1e6)%float = inr booted ∧
     int_fits (int_field "StartupInfo.boot_time") booted = true) ∧
  ((∃ e, Run fuel GetClientStatsAuto message () w = (Raised e, w)) ∨
   (∃ m,
      Run fuel GetClientStatsAuto message () w =
        (Returned (), with_trace (trace w ++ [EvSendReply m]) w) ∧
      session_id m = "W:Stats" ∧ request_id m = 0 ∧ response_id m = 0)) ∧
  (∀ message',
     Run fuel SendStartupInfo message' ttl w =
       Run fuel SendStartupInfo message ttl w ∧
     Run fuel GetClientStatsAuto message' () w =
       Run fuel GetClientStatsAuto message () w).
Proof.
  cbn [Run]. rewrite SendStartupInfo_Run_eq.
  split; [|split; [|split; [|done]]].
  - destruct (long _) as [e|booted]; [left; by exists e|].
    destruct (int_fits _ booted); [right|left; by exists ValueError].
    exists (startup_message ttl booted). by repeat split.
  - destruct (long _) as [e|booted].
    + split; [done|]. by intros (booted & [=] & _).
    + destruct (int_fits _ booted) eqn:Hfits.
      * split; [by exists booted|done].
      * split; [done|]. intros (booted' & [= <-] & Hfits'). congruence.
  - destruct (reads_only_GetClientStats_response w) as (r & Hr).
    rewrite (GetClientStatsAuto_Run_eq w r Hr).
    destruct r as [e|response]; [left; by exists e|right].
    exists (stats_message response). by repeat split.
Qed.

Lemma well_known_messages_carry_reserved_addressing_witness :
  (∃ booted,
     long (BOOT_TIME (host sample_world) * 1e6)%float = inr booted ∧
     int_fits (@int_field sample_jobs_pb2 "StartupInfo.boot_time") booted
       = true) ∧
  (@Run sample_jobs_pb2 sample_client_config 0 SendStartupInfo sample_request
     None sample_world).1 = Returned ().
Proof.
  assert (∃ booted,
            long (BOOT_TIME (host sample_world) * 1e6)%float = inr booted ∧
            int_fits (@int_field sample_jobs_pb2 "StartupInfo.boot_time")
              booted = true)
    as Hfinite by (exists 1351600000000000; split; vm_compute; reflexivity).
  split; [exact Hfinite|].
  destruct (@well_known_messages_carry_reserved_addressing
              sample_jobs_pb2 sample_client_config 0 sample_request None
              sample_world) as (_ & [_ Hreturns] & _ & _).
  exact (Hreturns Hfinite).
Defined.

(** C6. For every time-to-live given to SendStartupInfo, and whatever the
    request that triggers it, a run that returns has handed over exactly
    one message, addressed to the session "W:Startup" and carrying the
    time-to-live as given; a run returns exactly when the boot time
    converts to a number of microseconds that fits the boot_time field,
    and otherwise raises without sending. *)
Theorem SendStartupInfo_forwards_ttl_to_startup_session
    {pb : jobs_pb2} {cc : client_config}
    (fuel : nat) (message : Request) (ttl' : option Z) (w : World) :
  well_known_session_id = "W:Startup" ∧
  ((∃ e, Run fuel SendStartupInfo message ttl' w = (Raised e, w)) ∨
   (∃ m,
      Run fuel SendStartupInfo message ttl' w =
        (Returned (), with_trace (trace w ++ [EvSendReply m]) w) ∧
      session_id m = well_known_session_id ∧
      ttl m = ttl' ∧
      (req_session_id message ≠ well_known_session_id →
       session_id m ≠ req_session_id message))) ∧
  ((Run fuel SendStartupInfo message ttl' w).1 = Returned () ↔
   ∃ booted,
     long (BOOT_TIME (host w) * 1e6)%float = inr booted ∧
     int_fits (int_field "StartupInfo.boot_time") booted = true).
Proof.
  split; [reflexivity|].
  cbn [Run]. rewrite SendStartupInfo_Run_eq. split.
  - destruct (long _) as [e|booted]; [left; by exists e|].
    destruct (int_fits _ booted); [right|left; by exists ValueError].
    exists (startup_message ttl' booted). split; [reflexivity|].
    split; [reflexivity|]. split; [reflexivity|].
    intros Hne Heq. apply Hne. symmetry. exact Heq.
  - destruct (long _) as [e|booted].
    + split; [done|]. by intros (booted & [=] & _).
    + destruct (int_fits _ booted) eqn:Hfits.
      * split; [by exists booted|done].
      * split; [done|]. intros (booted' & [= <-] & Hfits'). congruence.
Qed.

Lemma SendStartupInfo_forwards_ttl_to_startup_session_witness :
  ∃ m,
    replies (trace (@Run sample_jobs_pb2 sample_client_config 0
                      SendStartupInfo sample_request (Some 30)
                      sample_world).2) = [m] ∧
    session_id m = "W:Startup" ∧ ttl m = Some 30.
Proof.
  destruct (@SendStartupInfo_forwards_ttl_to_startup_session
              sample_jobs_pb2 sample_client_config 0 sample_request (Some 30)
              sample_world) as (_ & [[e He]|(m & Hrun & Hsid & Httl & _)] & _).
  - exfalso. vm_compute in He. discriminate He.
  - exists m. rewrite Hrun. split; [reflexivity|]. split; [exact Hsid|exact Httl].
Defined.

(** C7. Run in the same world, GetClientStats and GetClientStatsAuto
    assemble the same response: either both raise the same exception
    before sending, or both return after exactly one message, and the two
    messages have the same payload, type and time-to-live. They differ in
    the addressing: the plain action answers the requester and asks for
    expedited transport, the Auto variant targets "W:Stats" with request
    and response id 0, does not ask for expedited transport, and carries
    LOW_PRIORITY, which is lower than the priority of the plain reply when
    LOW_PRIORITY is below the default priority. *)
Theorem GetClientStatsAuto_differs_in_addressing_only
    {pb : jobs_pb2} {cc : client_config}
    (fuel : nat) (message : Request) (w : World) :
  LOW_PRIORITY < NORMAL_PRIORITY →
  (∃ e,
     Run fuel GetClientStats message () w = (Raised e, w) ∧
     Run fuel GetClientStatsAuto message () w = (Raised e, w)) ∨
  (∃ m m_auto w' w_auto response,
     Run fuel GetClientStats message () w = (Returned (), w') ∧
     trace w' = trace w ++ [EvSendReply m] ∧
     Run fuel GetClientStatsAuto message () w = (Returned (), w_auto) ∧
     trace w_auto = trace w ++ [EvSendReply m_auto] ∧
     payload m = PClientStats response ∧
     payload m_auto = PClientStats response ∧
     message_type m_auto = message_type m ∧
     ttl m_auto = ttl m ∧
     session_id m = req_session_id message ∧
     request_id m = req_request_id message ∧
     response_id m = self_response_id w ∧
     require_fastpoll m = true ∧
     session_id m_auto = "W:Stats" ∧
     request_id m_auto = 0 ∧
     response_id m_auto = 0 ∧
     require_fastpoll m_auto = false ∧
     priority m_auto = LOW_PRIORITY ∧
     priority m_auto < priority m ∧
     FLAGS w_auto = FLAGS w' ∧ clock w_auto = clock w' ∧ host w_auto = host w').
Proof.
  intros Hlow. cbn [Run].
  destruct (reads_only_GetClientStats_response w) as (r & Hr).
  rewrite (GetClientStatsAuto_Run_eq w r Hr),
    (GetClientStats_Run_eq message w r Hr).
  destruct r as [e|response]; [left; by exists e|right].
  eexists _, _, _, _, response.
  split; [reflexivity|]. split; [reflexivity|].
  split; [reflexivity|]. split; [reflexivity|].
  cbn. by repeat split.
Qed.

Lemma GetClientStatsAuto_differs_in_addressing_only_witness :
  @LOW_PRIORITY sample_jobs_pb2 < @NORMAL_PRIORITY sample_jobs_pb2 ∧
  ∃ m m_auto,
    replies (trace (@Run sample_jobs_pb2 sample_client_config 0
                      GetClientStats sample_request () sample_world).2)
      = [m] ∧
    replies (trace (@Run sample_jobs_pb2 sample_client_config 0
                      GetClientStatsAuto sample_request () sample_world).2)
      = [m_auto] ∧
    payload m_auto = payload m ∧ priority m_auto < priority m.
Proof.
  assert (@LOW_PRIORITY sample_jobs_pb2 < @NORMAL_PRIORITY sample_jobs_pb2)
    as Hlow by reflexivity.
  split; [exact Hlow|].
  destruct (@GetClientStatsAuto_differs_in_addressing_only
              sample_jobs_pb2 sample_client_config 0 sample_request
              sample_world Hlow)
    as [(e & He & _)
       |(m & m_auto & w' & w_auto & response & Hrun & Ht & Hauto & Htauto
         & Hp & Hpauto & _ & _ & _ & _ & _ & _ & _ & _ & _ & _ & _ & Hlt & _)].
  - exfalso. vm_compute in He. discriminate He.
  - exists m, m_auto. rewrite Hrun, Hauto. cbn [snd]. rewrite Ht, Htauto.
    split; [reflexivity|]. split; [reflexivity|].
    split; [by rewrite Hp, Hpauto|exact Hlt].
Defined.

(** ** The priorities of the replies *)

Section Priorities.
Context {pb : jobs_pb2} {cc : client_config}.

Lemma emits_SendReply (P : GrrMessage → Prop) message protobuf :
  (∀ m, to_requester message MESSAGE NORMAL_PRIORITY m → P m) →
  emits P (SendReply message protobuf).
Proof.
  intros HP. eapply emits_weaken; [exact HP|].
  apply emits_SendReply_to_requester.
Qed.

Lemma emits_Run_priority (fuel : nat) (a : Action) (message : Request)
    (arg : in_protobuf a) :
  emits (λ m, priority m = priority_of a) (Run fuel a message arg).
Proof.
  destruct a; cbn [Run priority_of].
  - apply emits_SendReply. by intros m (_ & _ & _ & ? & _).
  - unfold GetHostname_Run. apply emits_bind; [apply emits_get_world|].
    intros w. apply emits_SendReply. by intros m (_ & _ & _ & ? & _).
  - unfold GetPlatformInfo_Run. apply emits_bind; [apply emits_get_world|].
    intros w. apply emits_SendReply. by intros m (_ & _ & _ & ? & _).
  - eapply emits_weaken; [|apply emits_Kill_Run].
    by intros m (_ & _ & _ & ? & _).
  - apply emits_Hang_Run.
  - apply emits_BusyHang_Run.
  - apply emits_Bloat_Run.
  - eapply emits_weaken; [|apply emits_GetConfig_Run].
    by intros m (_ & _ & _ & ? & _).
  - apply emits_UpdateConfig_Run.
  - apply emits_SendReply. by intros m (_ & _ & _ & ? & _).
  - eapply emits_weaken; [|apply emits_GetClientStats_Run].
    by intros m (_ & _ & _ & ? & _).
  - eapply emits_weaken; [|apply emits_GetClientStatsAuto_Run].
    by intros m (_ & _ & _ & _ & ? & _).
  - eapply emits_weaken; [|apply emits_SendStartupInfo_Run].
    by intros m (_ & _ & _ & _ & ? & _).
Qed.

End Priorities.

(** C8, as stated, fails: with the priorities LOW = 0, NORMAL = 1 and
    HIGH = 2, the startup report carries priority 0, which is none of
    NORMAL, HIGH and HIGH + 1. *)
Lemma priorities_NORMAL_HIGH_HIGH1_counterexample :
  ¬ (∀ (pb : jobs_pb2) (cc : client_config) (fuel : nat) (a : Action)
       (message : Request) (arg : in_protobuf a) (w : World) (m : GrrMessage),
       m ∈ replies (trace (Run fuel a message arg w).2) →
       m ∉ replies (trace w) →
       priority m = NORMAL_PRIORITY ∨ priority m = HIGH_PRIORITY ∨
       priority m = HIGH_PRIORITY + 1).
Proof.
  intros H.
  specialize (H sample_jobs_pb2 sample_client_config 0%nat SendStartupInfo
                sample_request (Some 30) sample_world
                (@startup_message sample_jobs_pb2 sample_client_config
                   (Some 30) 1351600000000000)).
  destruct H as [H|[H|H]].
  - vm_compute. apply list_elem_of_here.
  - vm_compute. apply not_elem_of_nil.
  - vm_compute in H. discriminate H.
  - vm_compute in H. discriminate H.
  - vm_compute in H. discriminate H.
Qed.

(** C8, amended. Every message an action hands to the reply channel
    carries the priority of its action: HIGH_PRIORITY + 1 for Kill,
    LOW_PRIORITY for the reports to well-known sessions (SendStartupInfo,
    GetClientStatsAuto) and the default priority for the others; so every
    priority is one of LOW, NORMAL, HIGH and HIGH + 1. *)
Theorem replies_carry_a_priority_of_LOW_NORMAL_HIGH_HIGH1
    {pb : jobs_pb2} {cc : client_config}
    (fuel : nat) (a : Action) (message : Request) (arg : in_protobuf a)
    (w : World) :
  ∃ new,
    trace (Run fuel a message arg w).2 = trace w ++ new ∧
    Forall (λ m, priority m = priority_of a) (replies new) ∧
    Forall (λ m, priority m = LOW_PRIORITY ∨ priority m = NORMAL_PRIORITY ∨
                 priority m = HIGH_PRIORITY ∨ priority m = HIGH_PRIORITY + 1)
           (replies new).
Proof.
  destruct (emits_Run_priority fuel a message arg w) as (new & Ht & HP).
  exists new. split; [exact Ht|]. split; [exact HP|].
  eapply Forall_impl; [exact HP|].
  intros m ->. destruct a; cbn; auto.
Qed.

(** ** The fault-injection actions *)

Lemma replies_replicate_EvAlloc (n : nat) (bytes : Z) :
  replies (replicate n (EvAlloc bytes)) = [].
Proof. induction n as [|n IH]; [done|exact IH]. Qed.

Lemma silent_replies {A} (m : M A) (w : World) :
  emits (λ _, False) m → replies (trace (m w).2) = replies (trace w).
Proof.
  intros Hm. destruct (Hm w) as (new & -> & Hnone).
  rewrite replies_app.
  destruct (replies new) as [|msg msgs]; [by rewrite app_nil_r|].
  by apply Forall_cons in Hnone as [[] _].
Qed.

Lemma Hang_Run_eq (arg : DataBlob) (w : World) :
  0 ≤ py_or (integer arg) 6000 →
  Hang_Run arg w =
  (Returned (),
   with_clock (clock w + inject_Z (py_or (integer arg) 6000))%Q
     (with_trace (trace w ++ [EvSleep (py_or (integer arg) 6000)]) w)).
Proof. apply time_sleep_eq. Qed.

Lemma Bloat_Run_eq (arg : DataBlob) (w : World) :
  Bloat_Run arg w =
  (Returned (),
   with_clock (clock w + inject_Z 60)%Q
     (with_trace
        (trace w ++
         replicate (Z.to_nat (py_or (integer arg) 1024)) (EvAlloc 1048576) ++
         [EvSleep 60]) w)).
Proof.
  unfold Bloat_Run. rewrite bind_unfold, append_loop. cbn beta iota.
  rewrite time_sleep_eq by lia.
  unfold range. rewrite length_seqZ, megabyte_length.
  unfold with_clock, with_trace. cbn [trace clock FLAGS self_response_id tick
    PARSER_fault host].
  by rewrite <-app_assoc.
Qed.

Lemma BusyHang_Run_returns (d : Z) (arg : DataBlob) (w : World) :
  py_or (integer arg) 5 = d → 0 < d → (0 < tick w)%Q →
  ∃ (fuel0 : nat) (last : Q),
    (∀ fuel, (fuel0 ≤ fuel)%nat →
       BusyHang_Run fuel arg w = (Returned (), with_clock (last + tick w) w)) ∧
    (clock w + inject_Z d <= last)%Q ∧
    (last < clock w + inject_Z d + tick w)%Q.
Proof.
  intros Hd Hpos Htick.
  pose (fuel0 := Z.to_nat (d * Z.pos (Qden (tick w)))).
  pose proof (enough_fuel d (tick w) Htick ltac:(lia)) as Hfuel.
  fold fuel0 in Hfuel.
  assert (0 < inject_Z d)%Q as Hdq.
  { change (inject_Z 0 < inject_Z d)%Q. by rewrite <-Zlt_Qlt. }
  destruct (BusyHang_spin_returns fuel0 (clock w + inject_Z d)
              (with_clock (clock w + tick w) w))
    as (last & Hrun & H1 & H2).
  { exact Htick. }
  { cbn [clock tick with_clock]. lra. }
  { cbn [clock tick with_clock]. lra. }
  exists (S fuel0), last. split; [|split; [exact H1|exact H2]].
  intros fuel Hle. unfold BusyHang_Run. rewrite bind_unfold.
  unfold time_time at 1. cbn beta iota. rewrite Hd.
  by apply (BusyHang_spin_more_fuel (S fuel0)).
Qed.

(** C10. For every request whose integer argument is zero or unset (the
    default applies) or strictly positive (the argument applies): Hang
    returns after one sleep of 6000 seconds, or of the argument; BusyHang,
    on a clock that advances at each reading, returns given enough fuel,
    and leaves its loop at the first reading that is 5 seconds, or the
    argument, after the first; Bloat appends 1024 strings, or as many as
    the argument, of 1048576 characters each and then sleeps 60 seconds.
    None of the three hands anything to the reply channel, whatever the
    argument. *)
Theorem fault_injection_defaults (arg : DataBlob) (w : World) :
  0 ≤ integer arg → (0 < tick w)%Q →
  let pick (default : Z) :=
    if decide (integer arg = 0) then default else integer arg in
  (DataBlob_integer arg = None → integer arg = 0) ∧
  Hang_Run arg w =
    (Returned (),
     with_clock (clock w + inject_Z (pick 6000%Z))%Q
       (with_trace (trace w ++ [EvSleep (pick 6000)]) w)) ∧
  (∃ (fuel0 : nat) (last : Q),
     (∀ fuel, (fuel0 ≤ fuel)%nat →
        BusyHang_Run fuel arg w =
          (Returned (), with_clock (last + tick w) w)) ∧
     (clock w + inject_Z (pick 5%Z) <= last)%Q ∧
     (last < clock w + inject_Z (pick 5%Z) + tick w)%Q) ∧
  Bloat_Run arg w =
    (Returned (),
     with_clock (clock w + inject_Z 60)%Q
       (with_trace
          (trace w ++
           replicate (Z.to_nat (pick 1024)) (EvAlloc 1048576) ++
           [EvSleep 60]) w)) ∧
  Z.of_nat (String.length (py_str_mul "X" 1048576)) = 1024 * 1024 ∧
  replies (trace (Hang_Run arg w).2) = replies (trace w) ∧
  (∀ fuel, replies (trace (BusyHang_Run fuel arg w).2) = replies (trace w)) ∧
  replies (trace (Bloat_Run arg w).2) = replies (trace w).
Proof.
  intros Hnonneg Htick pick.
  assert (∀ default, 0 < default → py_or (integer arg) default = pick default
                                 ∧ 0 < pick default) as Hpick.
  { intros default Hdef. unfold pick.
    destruct (decide (integer arg = 0)) as [->|Hne].
    - by rewrite py_or_zero.
    - rewrite py_or_nonzero by done. lia. }
  split; [unfold integer; by intros ->|].
  split.
  { destruct (Hpick 6000) as [<- Hpos]; [lia|]. apply Hang_Run_eq. lia. }
  split.
  { destruct (Hpick 5) as [Heq Hpos]; [lia|].
    by apply BusyHang_Run_returns. }
  split.
  { destruct (Hpick 1024) as [<- Hpos]; [lia|]. apply Bloat_Run_eq. }
  split; [apply megabyte_length|].
  split; [apply silent_replies, emits_Hang_Run|].
  split; [intros fuel; apply silent_replies, emits_BusyHang_Run|].
  apply silent_replies, emits_Bloat_Run.
Qed.

Lemma fault_injection_defaults_witness :
  let unset := {| DataBlob_integer := None; DataBlob_string := None |} in
  0 ≤ integer unset ∧ (0 < tick sample_world)%Q ∧
  trace (Hang_Run unset sample_world).2 = [EvSleep 6000] ∧
  trace (Bloat_Run unset sample_world).2 =
    replicate 1024 (EvAlloc 1048576) ++ [EvSleep 60].
Proof.
  intros unset.
  assert (0 ≤ integer unset) as Hnonneg by done.
  assert (0 < tick sample_world)%Q as Htick by done.
  destruct (fault_injection_defaults unset sample_world Hnonneg Htick)
    as (_ & Hhang & _ & Hbloat & _).
  split; [exact Hnonneg|]. split; [exact Htick|].
  rewrite Hhang, Hbloat. split; reflexivity.
Defined.

(** * Further properties of the actions *)

(** ** The introspection actions *)

(** X1. GetHostname, GetPlatformInfo and GetClientInfo always return, after
    handing exactly one message to the reply channel; it answers the
    requester as a MESSAGE of the default priority, and its payload is,
    respectively, a DataBlob whose string is the host name, the five fields
    of the platform's uname, and the name, version and build time of the
    client. None of them changes a flag. *)
Theorem introspection_actions_reply_once
    {pb : jobs_pb2} {cc : client_config} (message : Request) (w : World) :
  answers_once message w (GetHostname_Run message)
    (PDataBlob {| DataBlob_integer := None;
                  DataBlob_string := Some (gethostname (host w)) |}) ∧
  answers_once message w (GetPlatformInfo_Run message)
    (PUname (uname (host w))) ∧
  answers_once message w (GetClientInfo_Run message)
    (PClientInformation {| client_name := GRR_CLIENT_NAME;
                           client_version := GRR_CLIENT_VERSION;
                           build_time := GRR_CLIENT_BUILDTIME |}).
Proof.
  unfold answers_once. split; [|split].
  - eexists _, _. split; [reflexivity|]. by repeat split.
  - unfold GetPlatformInfo_Run. rewrite bind_unfold.
    cbn beta iota zeta delta [get_world]. rewrite SendReply_eq.
    eexists _, _. split; [reflexivity|]. cbn.
    split; [reflexivity|]. split; [by destruct (uname (host w))|].
    by repeat split.
  - eexists _, _. split; [reflexivity|]. by repeat split.
Qed.

(** ** GetConfig as a snapshot of the flags *)

Lemma pb_put_names (msg : GRRConfig) (field : string) (value : PyValue) :
  (pb_put msg field value).*1 =
  if decide (field ∈ msg.*1) then msg.*1 else msg.*1 ++ [field].
Proof.
  induction msg as [|[f v] msg IH]; [done|]. cbn [pb_put].
  destruct (decide (f = field)) as [->|Hne]; cbn [fmap list_fmap fst].
  - rewrite decide_True; [done|apply list_elem_of_here].
  - change (list_fmap _ _ fst ?l) with (l.*1). rewrite IH.
    destruct (decide (field ∈ msg.*1)) as [Hin|Hin].
    + rewrite decide_True; [done|by apply list_elem_of_further].
    + rewrite decide_False; [done|].
      intros [?|?]%elem_of_cons; [congruence|done].
Qed.

Lemma pb_put_NoDup (msg : GRRConfig) (field : string) (value : PyValue) :
  NoDup msg.*1 → NoDup (pb_put msg field value).*1.
Proof.
  intros Hnd. rewrite pb_put_names.
  destruct (decide (field ∈ msg.*1)); [done|].
  apply NoDup_app. split; [done|]. split; [|apply NoDup_singleton].
  intros x Hx ->%list_elem_of_singleton. contradiction.
Qed.

Lemma pb_getattr_Some_in (msg : GRRConfig) (field : string) (value : PyValue) :
  pb_getattr msg field = Some value → (field, value) ∈ msg.
Proof.
  induction msg as [|[f v] msg IH]; [done|]. cbn [pb_getattr].
  destruct (decide (f = field)) as [->|Hne].
  - intros [= ->]. apply list_elem_of_here.
  - intros H. apply list_elem_of_further. by apply IH.
Qed.

Lemma pb_getattr_of_NoDup (msg : GRRConfig) (field : string) (value : PyValue) :
  NoDup msg.*1 → (field, value) ∈ msg → pb_getattr msg field = Some value.
Proof.
  induction msg as [|[f v] msg IH]; intros Hnd Hin.
  - by apply elem_of_nil in Hin.
  - cbn in Hnd. apply NoDup_cons in Hnd as [Hf Hnd]. cbn [pb_getattr].
    apply elem_of_cons in Hin as [[= -> ->]|Hin].
    + by rewrite decide_True.
    + rewrite decide_False; [by apply IH|].
      intros Heq. apply Hf. rewrite Heq.
      apply list_elem_of_fmap. by exists (field, value).
Qed.

Lemma read_flags_lookup flags (fields : list string) (out : GRRConfig)
    (name : string) :
  pb_getattr (foldl (read_flag flags) out fields) name =
  if decide (name ∈ fields) then
    match flags !! name with
    | Some value => Some value
    | None => pb_getattr out name
    end
  else pb_getattr out name.
Proof.
  revert out. induction fields as [|f fields IH]; intros out; [done|].
  cbn [foldl]. rewrite IH.
  assert (pb_getattr (read_flag flags out f) name =
          if decide (f = name) then
            match flags !! name with
            | Some value => Some value
            | None => pb_getattr out name
            end
          else pb_getattr out name) as Hstep.
  { unfold read_flag. destruct (decide (f = name)) as [->|Hne].
    - destruct (flags !! name); [|done].
      by rewrite pb_getattr_put, decide_True.
    - destruct (flags !! f); [|done].
      by rewrite pb_getattr_put, decide_False. }
  rewrite Hstep.
  destruct (decide (f = name)) as [->|Hne].
  - rewrite (decide_True (P := name ∈ name :: fields))
      by apply list_elem_of_here.
    destruct (decide (name ∈ fields)); [|done]. by destruct (flags !! name).
  - destruct (decide (name ∈ fields)) as [Hin|Hin].
    + rewrite decide_True; [done|by apply list_elem_of_further].
    + rewrite decide_False; [done|].
      intros [?|?]%elem_of_cons; [congruence|done].
Qed.

Lemma read_flags_NoDup flags (fields : list string) (out : GRRConfig) :
  NoDup out.*1 → NoDup (foldl (read_flag flags) out fields).*1.
Proof.
  revert out. induction fields as [|f fields IH]; intros out Hnd; [done|].
  cbn [foldl]. apply IH. unfold read_flag.
  destruct (flags !! f); [by apply pb_put_NoDup|done].
Qed.

Lemma read_flags_inl {pb : jobs_pb2} flags (fields : list string)
    (out : GRRConfig) (e : Exn) :
  read_flags flags fields out = inl e →
  ∃ field value,
    field ∈ fields ∧ flags !! field = Some value ∧
    GRRConfig_check field value = Some e.
Proof.
  revert out. induction fields as [|f fields IH]; intros out Hr; [done|].
  cbn [read_flags] in Hr.
  destruct (flags !! f) as [v|] eqn:E.
  - destruct (GRRConfig_check f v) as [e'|] eqn:Ec.
    + injection Hr as ->. exists f, v. split; [apply list_elem_of_here|done].
    + destruct (IH _ Hr) as (field & value & Hin & Hflag & Hcheck).
      exists field, value. split; [by apply list_elem_of_further|done].
  - destruct (IH _ Hr) as (field & value & Hin & Hflag & Hcheck).
    exists field, value. split; [by apply list_elem_of_further|done].
Qed.

(** X2. GetConfig returns exactly when every flag that exists and is named
    in the descriptor of GRRConfig fits its field. It then sends one reply
    to the requester, whose GRRConfig payload has distinct field names and
    holds, for every name, the value of the flag of that name when the
    name is in the descriptor and the flag exists, and nothing otherwise.
    When some flag does not fit, the run raises what the type checker
    raises for such a flag and sends no reply. The world is otherwise left
    as it is, and a missing flag is no error. *)
Theorem GetConfig_reports_the_flags_of_the_descriptor
    {pb : jobs_pb2} (message : Request) (w : World) :
  (∃ e field value,
     GetConfig_Run message w = (Raised e, w) ∧
     field ∈ GRRConfig_fields ∧ FLAGS w !! field = Some value ∧
     GRRConfig_check field value = Some e ∧
     ¬ flags_fit (FLAGS w)) ∨
  (flags_fit (FLAGS w) ∧
   ∃ out,
     answers_once message w (GetConfig_Run message) (PGRRConfig out) ∧
     NoDup out.*1 ∧
     (∀ name,
        pb_getattr out name =
        if decide (name ∈ GRRConfig_fields) then FLAGS w !! name else None) ∧
     (∀ name value,
        (name, value) ∈ out ↔
        name ∈ GRRConfig_fields ∧ FLAGS w !! name = Some value)).
Proof.
  rewrite GetConfig_Run_eq.
  destruct (read_flags (FLAGS w) GRRConfig_fields []) as [e|out] eqn:Hout.
  { left. destruct (read_flags_inl _ _ _ _ Hout)
      as (field & value & Hin & Hflag & Hcheck).
    exists e, field, value. repeat split; try done.
    intros Hfit. rewrite (Hfit field value) in Hcheck; done. }
  right. destruct (read_flags_inr _ _ _ _ Hout) as [-> Hfit].
  split; [exact Hfit|].
  exists (foldl (read_flag (FLAGS w)) [] GRRConfig_fields).
  assert (∀ name,
            pb_getattr (foldl (read_flag (FLAGS w)) [] GRRConfig_fields) name =
            if decide (name ∈ GRRConfig_fields) then FLAGS w !! name else None)
    as Hlookup.
  { intros name. rewrite read_flags_lookup.
    destruct (decide (name ∈ GRRConfig_fields)); [|done].
    by destruct (FLAGS w !! name). }
  assert (NoDup (foldl (read_flag (FLAGS w)) [] GRRConfig_fields).*1) as Hnd
    by apply read_flags_NoDup, NoDup_nil_2.
  split; [|split; [exact Hnd|split; [exact Hlookup|]]].
  - unfold answers_once. rewrite GetConfig_Run_eq, Hout.
    eexists _, _. split; [reflexivity|]. by repeat split.
  - intros name value. split.
    + intros Hin. apply (pb_getattr_of_NoDup _ _ _ Hnd) in Hin.
      rewrite Hlookup in Hin.
      by destruct (decide (name ∈ GRRConfig_fields)).
    + intros [Hin Hflag]. apply pb_getattr_Some_in.
      by rewrite Hlookup, decide_True.
Qed.

Lemma apply_fields_agree (flags : gmap string PyValue)
    (fields : list (string * PyValue)) :
  (∀ name value, (name, value) ∈ fields → flags !! name = Some value) →
  apply_fields flags fields = flags.
Proof.
  induction fields as [|[f v] fields IH]; intros Hagree; [done|].
  rewrite apply_fields_cons.
  assert (<[f := v]> flags = flags) as Hid
    by (apply insert_id, Hagree, list_elem_of_here).
  assert (apply_fields flags fields = flags) as Hrest.
  { apply IH. intros name value Hin.
    by apply Hagree, list_elem_of_further. }
  destruct (bool_decide (f ∈ UPDATEABLE_FIELDS)); [by rewrite Hid|done].
Qed.

(** X3. Round trip of GetConfig through UpdateConfig: whenever GetConfig
    returns (it does when every flag fits its field, and otherwise raises
    without a reply), sending the payload of its reply back as an
    UpdateConfig request changes no flag, in the world GetConfig left and
    in any world with the same flags. *)
Theorem UpdateConfig_of_a_GetConfig_reply_changes_nothing
    {pb : jobs_pb2} (message : Request) (w : World) :
  ((∃ e, GetConfig_Run message w = (Raised e, w)) ∧ ¬ flags_fit (FLAGS w)) ∨
  (flags_fit (FLAGS w) ∧
   ∃ out w1,
     answers_once message w (GetConfig_Run message) (PGRRConfig out) ∧
     GetConfig_Run message w = (Returned (), w1) ∧
     FLAGS (UpdateConfig_Run out w1).2 = FLAGS w ∧
     ∀ w2, FLAGS w2 = FLAGS w → FLAGS (UpdateConfig_Run out w2).2 = FLAGS w).
Proof.
  destruct (read_flags (FLAGS w) GRRConfig_fields []) as [e|out] eqn:Hout.
  { left. rewrite GetConfig_Run_eq, Hout. split; [by exists e|].
    intros Hfit. by rewrite (read_flags_fit _ _ _ Hfit) in Hout. }
  right. destruct (read_flags_inr _ _ _ _ Hout) as [Heq Hfit].
  split; [exact Hfit|]. exists out.
  assert (∀ w2, FLAGS w2 = FLAGS w →
            FLAGS (UpdateConfig_Run out w2).2 = FLAGS w) as Hround.
  { intros w2 Hsame. rewrite UpdateConfig_Run_eq. cbn. rewrite Hsame.
    apply apply_fields_agree. intros name value Hin. subst out.
    apply pb_getattr_of_NoDup in Hin;
      [|apply read_flags_NoDup, NoDup_nil_2].
    rewrite read_flags_lookup in Hin.
    destruct (decide (name ∈ GRRConfig_fields)); [|done].
    by destruct (FLAGS w !! name). }
  eexists. rewrite GetConfig_Run_eq, Hout.
  split; [|split; [reflexivity|split; [|exact Hround]]].
  - unfold answers_once. rewrite GetConfig_Run_eq, Hout.
    eexists _, _. split; [reflexivity|]. by repeat split.
  - by apply Hround.
Qed.

Lemma sample_flags_fit : @flags_fit sample_jobs_pb2 (FLAGS sample_world).
Proof.
  intros field value Hin Hflag.
  repeat (apply elem_of_cons in Hin as [->|Hin];
          [vm_compute in Hflag;
           by (discriminate Hflag || injection Hflag as <-)|]).
  by apply elem_of_nil in Hin.
Qed.

Lemma UpdateConfig_of_a_GetConfig_reply_changes_nothing_witness :
  ∃ out w1,
    @GetConfig_Run sample_jobs_pb2 sample_request sample_world
      = (Returned (), w1) ∧
    FLAGS (UpdateConfig_Run out w1).2 = FLAGS sample_world.
Proof.
  destruct (@UpdateConfig_of_a_GetConfig_reply_changes_nothing
              sample_jobs_pb2 sample_request sample_world)
    as [[_ Hnot]|(_ & out & w1 & _ & Hrun & Hround & _)].
  - destruct (Hnot sample_flags_fit).
  - by exists out, w1.
Defined.

(** ** More on UpdateConfig *)

Lemma apply_fields_keeps flags fields (name : string) :
  name ∉ allowed fields → apply_fields flags fields !! name = flags !! name.
Proof.
  intros Hn. destruct (decide (name ∈ UPDATEABLE_FIELDS)) as [Hal|Hal];
    [|by apply apply_fields_not_allowed].
  apply apply_fields_not_in. intros Hin. apply Hn.
  unfold allowed. by apply list_elem_of_filter.
Qed.

Lemma apply_fields_indep flags flags' fields (name : string) :
  name ∈ allowed fields →
  apply_fields flags fields !! name = apply_fields flags' fields !! name.
Proof.
  revert flags flags'.
  induction fields as [|[f v] fields IH]; intros flags flags' Hin.
  - unfold allowed in Hin. by apply elem_of_nil in Hin.
  - rewrite !apply_fields_cons.
    destruct (decide (name ∈ allowed fields)) as [Hrest|Hrest];
      [by apply IH|].
    rewrite !apply_fields_keeps by done.
    destruct (decide (f ∈ UPDATEABLE_FIELDS)) as [Hal|Hal].
    + rewrite allowed_cons_True in Hin by done.
      apply elem_of_cons in Hin as [->|Hin]; [|contradiction].
      rewrite bool_decide_eq_true_2 by done.
      by rewrite !lookup_insert_eq.
    + rewrite allowed_cons_False in Hin by done. contradiction.
Qed.

Lemma apply_fields_idempotent flags fields :
  apply_fields (apply_fields flags fields) fields = apply_fields flags fields.
Proof.
  apply map_eq. intros name.
  destruct (decide (name ∈ allowed fields)) as [Hin|Hin].
  - by apply apply_fields_indep.
  - by rewrite apply_fields_keeps.
Qed.

Lemma apply_fields_app flags fields fields' :
  apply_fields flags (fields ++ fields') =
  apply_fields (apply_fields flags fields) fields'.
Proof. unfold apply_fields. apply foldl_app. Qed.

Lemma allowed_app fields fields' :
  allowed (fields ++ fields') = allowed fields ++ allowed fields'.
Proof. unfold allowed. by rewrite fmap_app, filter_app. Qed.

(** X4. UpdateConfig is idempotent on the flags: running the same request
    a second time, whatever the storage answered the first time, leaves
    every flag as the first run set it. *)
Theorem UpdateConfig_twice_is_UpdateConfig_once (arg : GRRConfig) (w : World) :
  FLAGS (UpdateConfig_Run arg (UpdateConfig_Run arg w).2).2 =
  FLAGS (UpdateConfig_Run arg w).2.
Proof.
  rewrite !UpdateConfig_Run_eq. cbn. apply apply_fields_idempotent.
Qed.

(** X5. Two UpdateConfig requests run one after the other set the flags
    as the single request that holds the fields of the first followed by
    those of the second, and together they persist the same names. *)
Theorem UpdateConfig_runs_compose (arg1 arg2 : GRRConfig) (w : World) :
  FLAGS (UpdateConfig_Run arg2 (UpdateConfig_Run arg1 w).2).2 =
    FLAGS (UpdateConfig_Run (arg1 ++ arg2) w).2 ∧
  ∃ log1 log2 log,
    trace (UpdateConfig_Run arg2 (UpdateConfig_Run arg1 w).2).2 =
      trace w ++ log1 ++ [EvPersist (allowed arg1)]
              ++ log2 ++ [EvPersist (allowed arg2)] ∧
    trace (UpdateConfig_Run (arg1 ++ arg2) w).2 =
      trace w ++ log ++ [EvPersist (allowed arg1 ++ allowed arg2)].
Proof.
  rewrite !UpdateConfig_Run_eq. cbn. split; [by rewrite apply_fields_app|].
  exists (warnings arg1), (warnings arg2), (warnings (arg1 ++ arg2)).
  split; [by rewrite <-!app_assoc|by rewrite allowed_app].
Qed.

(** X6. UpdateConfig records every field of the request exactly once, as
    applied or as refused, in the order of the request. Before the
    persistence call it logs nothing when every field is on the whitelist,
    and otherwise exactly one warning, which names the refused fields in
    the order of the request, separated by commas. *)
Theorem UpdateConfig_logs_one_warning_for_the_refused_fields
    (arg : GRRConfig) (w : World) :
  ∃ updated_keys disallowed_fields w1 log,
    for_each (ListFields arg) UpdateConfig_step ([], []) w
      = (Returned (updated_keys, disallowed_fields), w1) ∧
    updated_keys ++ disallowed_fields ≡ₚ arg.*1 ∧
    sublist updated_keys arg.*1 ∧ sublist disallowed_fields arg.*1 ∧
    Forall (λ field, field ∈ UPDATEABLE_FIELDS) updated_keys ∧
    Forall (λ field, field ∉ UPDATEABLE_FIELDS) disallowed_fields ∧
    trace (UpdateConfig_Run arg w).2 =
      trace w ++ log ++ [EvPersist updated_keys] ∧
    (log = [] ↔ ∀ field, field ∈ arg.*1 → field ∈ UPDATEABLE_FIELDS) ∧
    (log = [] ∨
     log = [EvWarning
              ("Received an update request for restricted field(s) "
               +:+ join "," disallowed_fields +:+ ".")]).
Proof.
  eexists (allowed arg), (restricted arg), _, (warnings arg).
  split; [unfold ListFields; apply UpdateConfig_loop|].
  split; [apply filter_app_complement|].
  split; [apply sublist_filter|]. split; [apply sublist_filter|].
  split; [apply Forall_forall; by intros f [? _]%list_elem_of_filter|].
  split; [apply Forall_forall; by intros f [? _]%list_elem_of_filter|].
  split; [by rewrite UpdateConfig_Run_eq|].
  unfold warnings. case_bool_decide as Hr.
  - split; [|by right]. split; [done|].
    intros Hall. exfalso.
    destruct (restricted arg) as [|f l] eqn:E; [done|].
    assert (f ∈ restricted arg) as Hin by (rewrite E; apply list_elem_of_here).
    apply list_elem_of_filter in Hin as [Hnot Hin]. by apply Hnot, Hall.
  - split; [|by left]. split; [|done].
    intros _ field Hin.
    destruct (decide (field ∈ UPDATEABLE_FIELDS)) as [|Hnot]; [done|].
    exfalso.
    assert (field ∈ restricted arg) as Hin'
      by (by apply list_elem_of_filter).
    rewrite Hr in Hin'. by apply elem_of_nil in Hin'.
Qed.

(** X7. When the persistence call of UpdateConfig raises an exception that
    is neither an IOError nor an OSError, that exception propagates out of
    the run; the flags are nonetheless left as the loop set them (there is
    no rollback), and nothing is handed to the reply channel. *)
Theorem UpdateConfig_lets_other_exceptions_through
    (arg : GRRConfig) (w : World) (e : Exn) :
  PARSER_fault w (allowed arg) = Some e →
  e ≠ IOError → e ≠ OSError →
  ∃ updated_keys disallowed_fields w1,
    for_each (ListFields arg) UpdateConfig_step ([], []) w
      = (Returned (updated_keys, disallowed_fields), w1) ∧
    (UpdateConfig_Run arg w).1 = Raised e ∧
    FLAGS (UpdateConfig_Run arg w).2 = FLAGS w1 ∧
    replies (trace (UpdateConfig_Run arg w).2) = replies (trace w).
Proof.
  intros Hfault Hio Hos. eexists _, _, _.
  split; [unfold ListFields; apply UpdateConfig_loop|].
  split; [|split; [by rewrite UpdateConfig_Run_eq|]].
  - rewrite UpdateConfig_Run_eq. cbn [fst]. rewrite Hfault.
    by destruct e.
  - apply silent_replies, emits_UpdateConfig_Run.
Qed.

Lemma UpdateConfig_lets_other_exceptions_through_witness :
  PARSER_fault broken_world (allowed scenario_request)
    = Some (PyException "ConfigParser.Error") ∧
  (UpdateConfig_Run scenario_request broken_world).1
    = Raised (PyException "ConfigParser.Error") ∧
  FLAGS (UpdateConfig_Run scenario_request broken_world).2 !! "poll_min"
    = Some (VInt 5).
Proof.
  destruct (UpdateConfig_lets_other_exceptions_through scenario_request
              broken_world (PyException "ConfigParser.Error"))
    as (updated_keys & disallowed_fields & w1 & Hloop & Hraise & Hflags & _);
    [reflexivity|discriminate|discriminate|].
  split; [reflexivity|]. split; [exact Hraise|].
  rewrite Hflags. injection Hloop as _ _ <-. reflexivity.
Defined.

(** ** What the actions never do *)

Lemma keeps_flags_bind {A B} (m : M A) (k : A → M B) :
  keeps_flags m → (∀ a, keeps_flags (k a)) → keeps_flags (m ≫= k).
Proof.
  intros Hm Hk w. rewrite bind_unfold. specialize (Hm w).
  destruct (m w) as [[a|e|c|] w']; cbn in *; [|done..].
  by rewrite Hk.
Qed.

Lemma keeps_flags_for_each {A S} (xs : list A) (body : S → A → M S) (s : S) :
  (∀ s x, keeps_flags (body s x)) → keeps_flags (for_each xs body s).
Proof.
  intros Hb. revert s. induction xs as [|x xs IH]; intros s; [done|].
  rewrite for_each_cons. apply keeps_flags_bind; [apply Hb|exact IH].
Qed.

Lemma keeps_flags_reads_only {A} (m : M A) :
  (∀ w, reads_only m w) → keeps_flags m.
Proof. intros Hm w. by destruct (Hm w) as (r & ->). Qed.

Lemma keeps_flags_time_sleep (seconds : Z) : keeps_flags (time_sleep seconds).
Proof. intros w. unfold time_sleep. by destruct (seconds <? 0). Qed.

Lemma keeps_flags_BusyHang_spin (fuel : nat) (end_ : Q) :
  keeps_flags (BusyHang_spin fuel end_).
Proof.
  induction fuel as [|fuel IH]; [done|]. cbn [BusyHang_spin].
  apply keeps_flags_bind; [done|]. intros now.
  by destruct (Qlt_le_dec now end_).
Qed.

Lemma never_exits_bind {A B} (m : M A) (k : A → M B) :
  never_exits m → (∀ a, never_exits (k a)) → never_exits (m ≫= k).
Proof.
  intros Hm Hk w code. rewrite bind_unfold. specialize (Hm w).
  destruct (m w) as [[a|e|c|] w']; cbn in *; [apply Hk|done| |done].
  by destruct (Hm c).
Qed.

Lemma never_exits_for_each {A S} (xs : list A) (body : S → A → M S) (s : S) :
  (∀ s x, never_exits (body s x)) → never_exits (for_each xs body s).
Proof.
  intros Hb. revert s. induction xs as [|x xs IH]; intros s; [done|].
  rewrite for_each_cons. apply never_exits_bind; [apply Hb|exact IH].
Qed.

Lemma never_exits_try_except {A} (m : M A) (classes : Exn → bool)
    (handler : M A) :
  never_exits m → never_exits handler →
  never_exits (try_except m classes handler).
Proof.
  intros Hm Hh w code. unfold try_except. specialize (Hm w).
  destruct (m w) as [[a|e|c|] w']; cbn in *; [done| |by destruct (Hm c)|done].
  destruct (classes e); [apply Hh|done].
Qed.

Lemma never_exits_reads_only {A} (m : M A) :
  (∀ w, reads_only m w) → never_exits m.
Proof. intros Hm w code. destruct (Hm w) as ([e|a] & ->); done. Qed.

Lemma never_exits_time_sleep (seconds : Z) : never_exits (time_sleep seconds).
Proof. intros w code. unfold time_sleep. by destruct (seconds <? 0). Qed.

Lemma never_exits_BusyHang_spin (fuel : nat) (end_ : Q) :
  never_exits (BusyHang_spin fuel end_).
Proof.
  induction fuel as [|fuel IH]; [done|]. cbn [BusyHang_spin].
  apply never_exits_bind; [done|]. intros now.
  by destruct (Qlt_le_dec now end_).
Qed.

Lemma never_exits_UpdateConfig_Run (arg : GRRConfig) :
  never_exits (UpdateConfig_Run arg).
Proof.
  intros w code. rewrite UpdateConfig_Run_eq. cbn [fst].
  destruct (PARSER_fault w (allowed arg)) as [e|]; [|done].
  by destruct (IOError_or_OSError e).
Qed.

(** X8. UpdateConfig is the only action that writes the configuration:
    every other action, for every input, request and world and however it
    ends, leaves every flag as it was. *)
Theorem only_UpdateConfig_changes_the_flags
    {pb : jobs_pb2} {cc : client_config}
    (fuel : nat) (a : Action) (message : Request) (arg : in_protobuf a)
    (w : World) :
  a ≠ UpdateConfig → FLAGS (Run fuel a message arg w).2 = FLAGS w.
Proof.
  intros Ha. revert w. change (keeps_flags (Run fuel a message arg)).
  destruct a; cbn [Run]; try done.
  - apply keeps_flags_time_sleep.
  - apply keeps_flags_bind; [done|]. intros now.
    apply keeps_flags_BusyHang_spin.
  - apply keeps_flags_bind; [|intros l; apply keeps_flags_time_sleep].
    by apply keeps_flags_for_each.
  - intros w. rewrite GetConfig_Run_eq. by destruct (read_flags _ _ _).
  - apply keeps_flags_bind;
      [apply keeps_flags_reads_only, reads_only_GetClientStats_response|done].
  - apply keeps_flags_bind;
      [apply keeps_flags_reads_only, reads_only_GetClientStats_response|done].
  - intros w. rewrite SendStartupInfo_Run_eq.
    destruct (long _) as [e|booted]; [done|]. by destruct (int_fits _ booted).
Qed.

Lemma only_UpdateConfig_changes_the_flags_witness :
  Kill ≠ UpdateConfig ∧
  FLAGS (@Run sample_jobs_pb2 sample_client_config 0 Kill sample_request ()
           sample_world).2 = FLAGS sample_world.
Proof.
  assert (Kill ≠ UpdateConfig) as Hne by discriminate.
  split; [exact Hne|].
  exact (@only_UpdateConfig_changes_the_flags sample_jobs_pb2
           sample_client_config 0 Kill sample_request () sample_world Hne).
Defined.

(** X9. Kill is the only action that ends the process: no run of any other
    action, for any input, request and world, ends in an exit. *)
Theorem only_Kill_exits_the_process
    {pb : jobs_pb2} {cc : client_config}
    (fuel : nat) (a : Action) (message : Request) (arg : in_protobuf a)
    (w : World) (code : Z) :
  a ≠ Kill → (Run fuel a message arg w).1 ≠ Exited code.
Proof.
  intros Ha. revert w code. change (never_exits (Run fuel a message arg)).
  destruct a; cbn [Run]; try done.
  - apply never_exits_time_sleep.
  - apply never_exits_bind; [done|]. intros now.
    apply never_exits_BusyHang_spin.
  - apply never_exits_bind; [|intros l; apply never_exits_time_sleep].
    by apply never_exits_for_each.
  - intros w code. rewrite GetConfig_Run_eq. by destruct (read_flags _ _ _).
  - apply never_exits_UpdateConfig_Run.
  - apply never_exits_bind;
      [apply never_exits_reads_only, reads_only_GetClientStats_response|done].
  - apply never_exits_bind;
      [apply never_exits_reads_only, reads_only_GetClientStats_response|done].
  - intros w code. rewrite SendStartupInfo_Run_eq.
    destruct (long _) as [e|booted]; [done|]. by destruct (int_fits _ booted).
Qed.

Lemma only_Kill_exits_the_process_witness :
  UpdateConfig ≠ Kill ∧
  (@Run sample_jobs_pb2 sample_client_config 0 UpdateConfig sample_request
     scenario_request broken_world).1 ≠ Exited 242.
Proof.
  assert (UpdateConfig ≠ Kill) as Hne by discriminate.
  split; [exact Hne|].
  exact (@only_Kill_exits_the_process sample_jobs_pb2 sample_client_config 0
           UpdateConfig sample_request scenario_request broken_world 242 Hne).
Defined.

Lemma sends_at_most_silent {A} (m : M A) :
  emits (λ _, False) m → sends_at_most 0 m.
Proof.
  intros Hm w. destruct (Hm w) as (new & Ht & Hnone).
  exists new. split; [exact Ht|].
  destruct (replies new) as [|msg msgs]; [done|].
  by apply Forall_cons in Hnone as [[] _].
Qed.

Lemma sends_at_most_bind {A B} (n k : nat) (m : M A) (f : A → M B) :
  sends_at_most n m → (∀ a, sends_at_most k (f a)) →
  sends_at_most (n + k) (m ≫= f).
Proof.
  intros Hm Hf w. rewrite bind_unfold.
  destruct (Hm w) as (new & Ht & Hn).
  destruct (m w) as [[a|e|c|] w']; cbn in Ht;
    try (exists new; split; [exact Ht|lia]).
  destruct (Hf a w') as (new' & Ht' & Hk).
  exists (new ++ new'). rewrite Ht', Ht, app_assoc. split; [done|].
  rewrite replies_app, length_app. lia.
Qed.

Section Bound.
Context {pb : jobs_pb2} {cc : client_config}.

Lemma sends_at_most_SendReply_with message protobuf mt prio :
  sends_at_most 1 (SendReply_with message protobuf mt prio).
Proof. intros w. by eexists [_]. Qed.

Lemma sends_at_most_Run (fuel : nat) (a : Action) (message : Request)
    (arg : in_protobuf a) :
  sends_at_most (max_replies a) (Run fuel a message arg).
Proof.
  destruct a; cbn [Run max_replies].
  - apply sends_at_most_SendReply_with.
  - intros w. by eexists [_].
  - intros w. by eexists [_].
  - apply (sends_at_most_bind 1 0); [apply sends_at_most_SendReply_with|].
    intros _. apply sends_at_most_silent.
    apply emits_bind; [apply emits_grr_worker_Sleep|]. intros _.
    apply emits_bind; [by apply emits_other_event|]. intros _.
    apply emits_os__exit.
  - apply sends_at_most_silent, emits_Hang_Run.
  - apply sends_at_most_silent, emits_BusyHang_Run.
  - apply sends_at_most_silent, emits_Bloat_Run.
  - intros w. rewrite GetConfig_Run_eq.
    destruct (read_flags _ _ _); [|by eexists [_]].
    exists []. split; [by rewrite app_nil_r|cbn; lia].
  - apply sends_at_most_silent, emits_UpdateConfig_Run.
  - apply sends_at_most_SendReply_with.
  - apply (sends_at_most_bind 0 1);
      [apply sends_at_most_silent, emits_GetClientStats_response|].
    intros response. apply sends_at_most_SendReply_with.
  - apply (sends_at_most_bind 0 1);
      [apply sends_at_most_silent, emits_GetClientStats_response|].
    intros response w. by eexists [_].
  - intros w. rewrite SendStartupInfo_Run_eq.
    destruct (long _) as [e|booted];
      [|destruct (int_fits _ booted); [by eexists [_]|]];
      exists []; (split; [by rewrite app_nil_r|cbn; lia]).
Qed.

End Bound.

(** X10. A run of an action only appends to the trace of effects, and it
    hands at most one message to the reply channel, however it ends; a run
    of Hang, BusyHang, Bloat or UpdateConfig hands over none. *)
Theorem a_run_sends_at_most_one_message
    {pb : jobs_pb2} {cc : client_config}
    (fuel : nat) (a : Action) (message : Request) (arg : in_protobuf a)
    (w : World) :
  ∃ new,
    trace (Run fuel a message arg w).2 = trace w ++ new ∧
    (length (replies new) ≤ max_replies a)%nat ∧
    (max_replies a ≤ 1)%nat ∧
    (max_replies a = 0%nat ↔ a ∈ [Hang; BusyHang; Bloat; UpdateConfig]).
Proof.
  destruct (sends_at_most_Run fuel a message arg w) as (new & Ht & Hn).
  exists new. split; [exact Ht|]. split; [exact Hn|].
  split; [destruct a; cbn; lia|].
  destruct a; cbn [max_replies]; split; intros H;
    try discriminate H; try reflexivity; try in_list;
    exfalso;
    repeat (apply elem_of_cons in H as [H|H]; [discriminate H|]);
    by apply elem_of_nil in H.
Qed.

(** ** Edge cases of the fault-injection actions *)

(** X11. With a negative integer argument, Bloat allocates nothing (the
    range of a negative number is empty) and still sleeps its 60 seconds
    before it returns. *)
Theorem Bloat_with_a_negative_argument_only_sleeps
    (arg : DataBlob) (w : World) :
  integer arg < 0 →
  Bloat_Run arg w =
  (Returned (),
   with_clock (clock w + inject_Z 60)%Q
     (with_trace (trace w ++ [EvSleep 60]) w)).
Proof.
  intros Hneg. rewrite Bloat_Run_eq, py_or_nonzero by lia.
  by rewrite Z2Nat.nonpos by lia.
Qed.

Lemma Bloat_with_a_negative_argument_only_sleeps_witness :
  let minus_three := {| DataBlob_integer := Some (-3);
                        DataBlob_string := None |} in
  integer minus_three < 0 ∧
  trace (Bloat_Run minus_three sample_world).2 = [EvSleep 60].
Proof.
  intros minus_three.
  assert (integer minus_three < 0) as Hneg by done.
  split; [exact Hneg|].
  by rewrite (Bloat_with_a_negative_argument_only_sleeps
                minus_three sample_world Hneg).
Defined.

(** X12. With a negative integer argument the deadline of BusyHang is
    already past: on a clock that does not run backwards, the loop leaves
    at its first reading, so the run returns, given fuel for that one
    reading, after exactly two readings of the clock and without any other
    effect. *)
Theorem BusyHang_with_a_negative_argument_returns_at_once
    (fuel : nat) (arg : DataBlob) (w : World) :
  integer arg < 0 → (0 <= tick w)%Q →
  BusyHang_Run (S fuel) arg w =
  (Returned (), with_clock (clock w + tick w + tick w) w).
Proof.
  intros Hneg Htick. unfold BusyHang_Run. rewrite bind_unfold.
  unfold time_time at 1. cbn beta iota. rewrite py_or_nonzero by lia.
  cbn [BusyHang_spin]. rewrite bind_unfold. unfold time_time.
  cbn beta iota. cbn [clock with_clock tick].
  destruct (Qlt_le_dec _ _) as [Hlt|Hle]; [|reflexivity].
  exfalso.
  assert (inject_Z (integer arg) < 0)%Q as Hq.
  { change (inject_Z (integer arg) < inject_Z 0)%Q. by rewrite <-Zlt_Qlt. }
  lra.
Qed.

Lemma BusyHang_with_a_negative_argument_returns_at_once_witness :
  let minus_three := {| DataBlob_integer := Some (-3);
                        DataBlob_string := None |} in
  integer minus_three < 0 ∧ (0 <= tick sample_world)%Q ∧
  (BusyHang_Run 1 minus_three sample_world).1 = Returned ().
Proof.
  intros minus_three.
  assert (integer minus_three < 0) as Hneg by done.
  assert (0 <= tick sample_world)%Q as Htick by done.
  split; [exact Hneg|]. split; [exact Htick|].
  by rewrite (BusyHang_with_a_negative_argument_returns_at_once
                0 minus_three sample_world Hneg Htick).
Defined.

Lemma BusyHang_spin_frozen (fuel : nat) (end_ : Q) (w : World) :
  (tick w == 0)%Q → (clock w < end_)%Q →
  (BusyHang_spin fuel end_ w).1 = OutOfFuel.
Proof.
  revert w. induction fuel as [|fuel IH]; intros w Htick Hlt; [done|].
  cbn [BusyHang_spin]. rewrite bind_unfold. unfold time_time.
  cbn beta iota.
  destruct (Qlt_le_dec (clock w) end_) as [_|Hle]; [|lra].
  apply IH; cbn [clock tick with_clock]; [done|lra].
Qed.

(** X13. The loop of BusyHang has no exit but the clock: when the clock
    does not advance between readings and the duration (the argument, or 5
    for zero or unset) is positive, no amount of fuel lets the run return. *)
Theorem BusyHang_on_a_frozen_clock_never_returns
    (fuel : nat) (arg : DataBlob) (w : World) :
  (tick w == 0)%Q → 0 ≤ integer arg →
  (BusyHang_Run fuel arg w).1 = OutOfFuel.
Proof.
  intros Htick Hnonneg. unfold BusyHang_Run. rewrite bind_unfold.
  unfold time_time at 1. cbn beta iota.
  apply BusyHang_spin_frozen; cbn [clock tick with_clock]; [done|].
  assert (0 < py_or (integer arg) 5) as Hpos.
  { unfold py_or. destruct (Z.eqb_spec (integer arg) 0); lia. }
  assert (0 < inject_Z (py_or (integer arg) 5))%Q as Hq.
  { change (inject_Z 0 < inject_Z (py_or (integer arg) 5))%Q.
    by rewrite <-Zlt_Qlt. }
  lra.
Qed.

Lemma BusyHang_on_a_frozen_clock_never_returns_witness :
  let unset := {| DataBlob_integer := None; DataBlob_string := None |} in
  let frozen := {| FLAGS := ∅; self_response_id := 1; clock := 0; tick := 0;
                   PARSER_fault := λ _, None; host := sample_host;
                   trace := [] |} in
  (tick frozen == 0)%Q ∧ 0 ≤ integer unset ∧
  (BusyHang_Run 1000 unset frozen).1 = OutOfFuel.
Proof.
  intros unset frozen.
  assert (tick frozen == 0)%Q as Htick by done.
  assert (0 ≤ integer unset) as Hnonneg by done.
  split; [exact Htick|]. split; [exact Hnonneg|].
  exact (BusyHang_on_a_frozen_clock_never_returns 1000 unset frozen
           Htick Hnonneg).
Defined.

(** ** The stats response *)

Lemma long_micros_eq (x : pyfloat) (w : World) :
  long_micros x w =
  match long (x * 1e6)%float with
  | inl e => (Raised e, w)
  | inr z => (Returned z, w)
  end.
Proof. unfold long_micros. by destruct (long _). Qed.

Section StatsResponse.
Context {pb : jobs_pb2}.

Lemma pb_set_int_eq (name : string) (value : Z) (w : World) :
  pb_set_int name value w =
  if int_fits (int_field name) value then (Returned value, w)
  else (Raised ValueError, w).
Proof. unfold pb_set_int. by destruct (int_fits _ _). Qed.

Lemma cpu_samples_loop
    (samples : list (pyfloat * pyfloat * pyfloat * pyfloat))
    (acc : list CpuSample) (w : World) :
  (∃ e,
     for_each samples
       (λ acc '(timestamp, user, system, percent),
          t ← long_micros timestamp;
          t ← pb_set_int "CpuSample.timestamp" t;
          mret (acc ++ [{| cpu_timestamp := t; user_cpu_time := user;
                           system_cpu_time := system;
                           cpu_percent := percent |}])) acc w
     = (Raised e, w) ∧
     ¬ Forall cpu_storable samples) ∨
  (∃ outs,
     for_each samples
       (λ acc '(timestamp, user, system, percent),
          t ← long_micros timestamp;
          t ← pb_set_int "CpuSample.timestamp" t;
          mret (acc ++ [{| cpu_timestamp := t; user_cpu_time := user;
                           system_cpu_time := system;
                           cpu_percent := percent |}])) acc w
     = (Returned (acc ++ outs), w) ∧
     Forall2 cpu_converted samples outs ∧ Forall cpu_storable samples).
Proof.
  revert acc.
  induction samples as [|[[[timestamp user] system] percent] samples IH];
    intros acc.
  - right. exists []. rewrite app_nil_r. by repeat constructor.
  - rewrite for_each_cons, bind_unfold, bind_unfold, long_micros_eq.
    destruct (long (timestamp * 1e6)%float) as [e|t] eqn:E.
    + left. exists e. split; [done|].
      intros [(z & Hz & _) _]%Forall_cons. cbn in Hz. congruence.
    + cbn beta iota. rewrite bind_unfold, pb_set_int_eq.
      destruct (int_fits _ t) eqn:Ef.
      * cbn beta iota. rewrite mret_eq. cbn beta iota.
        destruct (IH (acc ++ [{| cpu_timestamp := t; user_cpu_time := user;
                                 system_cpu_time := system;
                                 cpu_percent := percent |}]))
          as [(e & -> & Hnot)|(outs & -> & Hall & Hst)].
        -- left. exists e. split; [done|].
           intros [_ ?]%Forall_cons. contradiction.
        -- right. eexists (_ :: outs). rewrite <-app_assoc.
           split; [reflexivity|].
           split; constructor; try done. by exists t.
      * left. exists ValueError. split; [done|].
        intros [(z & Hz & Hfits) _]%Forall_cons. cbn in Hz.
        unfold fits in Hfits. congruence.
Qed.

Lemma io_samples_loop (samples : list (pyfloat * Z * Z))
    (acc : list IOSample) (w : World) :
  (∃ e,
     for_each samples
       (λ acc '(timestamp, read_bytes, write_bytes),
          t ← long_micros timestamp;
          t ← pb_set_int "IOSample.timestamp" t;
          read_bytes ← pb_set_int "IOSample.read_bytes" read_bytes;
          write_bytes ← pb_set_int "IOSample.write_bytes" write_bytes;
          mret (acc ++ [{| io_timestamp := t; read_bytes := read_bytes;
                           write_bytes := write_bytes |}])) acc w
     = (Raised e, w) ∧
     ¬ Forall io_storable samples) ∨
  (∃ outs,
     for_each samples
       (λ acc '(timestamp, read_bytes, write_bytes),
          t ← long_micros timestamp;
          t ← pb_set_int "IOSample.timestamp" t;
          read_bytes ← pb_set_int "IOSample.read_bytes" read_bytes;
          write_bytes ← pb_set_int "IOSample.write_bytes" write_bytes;
          mret (acc ++ [{| io_timestamp := t; read_bytes := read_bytes;
                           write_bytes := write_bytes |}])) acc w
     = (Returned (acc ++ outs), w) ∧
     Forall2 io_converted samples outs ∧ Forall io_storable samples).
Proof.
  revert acc.
  induction samples as [|[[timestamp reads] writes] samples IH]; intros acc.
  - right. exists []. rewrite app_nil_r. by repeat constructor.
  - rewrite for_each_cons, bind_unfold, bind_unfold, long_micros_eq.
    destruct (long (timestamp * 1e6)%float) as [e|t] eqn:E.
    { left. exists e. split; [done|].
      intros [[(z & Hz & _) _] _]%Forall_cons. cbn in Hz. congruence. }
    cbn beta iota. rewrite bind_unfold, pb_set_int_eq.
    destruct (int_fits _ t) eqn:Et.
    2:{ left. exists ValueError. split; [done|].
        intros [[(z & Hz & Hfits) _] _]%Forall_cons. cbn in Hz.
        unfold fits in Hfits. congruence. }
    cbn beta iota. rewrite bind_unfold, pb_set_int_eq.
    destruct (int_fits _ reads) eqn:Er.
    2:{ left. exists ValueError. split; [done|].
        intros [(_ & Hfits & _) _]%Forall_cons.
        unfold fits in Hfits. cbn in Hfits. congruence. }
    cbn beta iota. rewrite bind_unfold, pb_set_int_eq.
    destruct (int_fits _ writes) eqn:Ew.
    2:{ left. exists ValueError. split; [done|].
        intros [(_ & _ & Hfits) _]%Forall_cons.
        unfold fits in Hfits. cbn in Hfits. congruence. }
    cbn beta iota. rewrite mret_eq. cbn beta iota.
    destruct (IH (acc ++ [{| io_timestamp := t; read_bytes := reads;
                             write_bytes := writes |}]))
      as [(e & -> & Hnot)|(outs & -> & Hall & Hst)].
    + left. exists e. split; [done|].
      intros [_ ?]%Forall_cons. contradiction.
    + right. eexists (_ :: outs). rewrite <-app_assoc.
      split; [reflexivity|].
      split; constructor; try done. split; [by exists t|done].
Qed.

End StatsResponse.

Ltac stats_raises :=
  split; [left; by eexists|];
  split; [|by intros ? [=]];
  split; [by intros [? [=]]|];
  unfold stores, fits; intros Hall; decompose [and ex] Hall; congruence.

Lemma GetClientStats_response_spec {pb : jobs_pb2} (w : World) :
  let proc := host w in
  ((∃ e, GetClientStats_response w = (Raised e, w)) ∨
   (∃ response, GetClientStats_response w = (Returned response, w))) ∧
  ((∃ response, GetClientStats_response w = (Returned response, w)) ↔
   fits "ClientStats.RSS_size" (get_memory_info proc).1 ∧
   fits "ClientStats.VMS_size" (get_memory_info proc).2 ∧
   fits "ClientStats.bytes_received"
     (STATS_Get proc "grr_client_received_bytes") ∧
   fits "ClientStats.bytes_sent" (STATS_Get proc "grr_client_sent_bytes") ∧
   stores "ClientStats.create_time" (proc_create_time proc) ∧
   stores "ClientStats.boot_time" (BOOT_TIME proc) ∧
   Forall cpu_storable (collector_cpu_samples proc) ∧
   Forall io_storable (collector_io_samples proc)) ∧
  ∀ response,
    GetClientStats_response w = (Returned response, w) →
    (RSS_size response, VMS_size response) = get_memory_info proc ∧
    memory_percent response = get_memory_percent proc ∧
    bytes_received response = STATS_Get proc "grr_client_received_bytes" ∧
    bytes_sent response = STATS_Get proc "grr_client_sent_bytes" ∧
    long (proc_create_time proc * 1e6)%float = inr (create_time response) ∧
    long (BOOT_TIME proc * 1e6)%float
      = inr (ClientStats_boot_time response) ∧
    Forall2 cpu_converted (collector_cpu_samples proc) (cpu_samples response) ∧
    Forall2 io_converted (collector_io_samples proc) (io_samples response).
Proof.
  intros proc. unfold GetClientStats_response.
  rewrite bind_unfold. cbn beta iota zeta delta [get_world]. fold proc.
  destruct (get_memory_info proc) as [rss vms] eqn:Emem. cbn [fst snd].
  rewrite bind_unfold, pb_set_int_eq.
  destruct (int_fits _ rss) eqn:E1; [|stats_raises].
  cbn beta iota. rewrite bind_unfold, pb_set_int_eq.
  destruct (int_fits _ vms) eqn:E2; [|stats_raises].
  cbn beta iota. rewrite bind_unfold, pb_set_int_eq.
  destruct (int_fits _ (STATS_Get proc "grr_client_received_bytes")) eqn:E3;
    [|stats_raises].
  cbn beta iota. rewrite bind_unfold, pb_set_int_eq.
  destruct (int_fits _ (STATS_Get proc "grr_client_sent_bytes")) eqn:E4;
    [|stats_raises].
  cbn beta iota. rewrite bind_unfold, long_micros_eq.
  destruct (long (proc_create_time proc * 1e6)%float) as [e|created] eqn:Ec;
    [stats_raises|].
  cbn beta iota. rewrite bind_unfold, pb_set_int_eq.
  destruct (int_fits _ created) eqn:E5; [|stats_raises].
  cbn beta iota. rewrite bind_unfold, long_micros_eq.
  destruct (long (BOOT_TIME proc * 1e6)%float) as [e|booted] eqn:Eb;
    [stats_raises|].
  cbn beta iota. rewrite bind_unfold, pb_set_int_eq.
  destruct (int_fits _ booted) eqn:E6; [|stats_raises].
  cbn beta iota. rewrite bind_unfold.
  destruct (cpu_samples_loop (collector_cpu_samples proc) [] w)
    as [(e & -> & Hnot)|(cpu & -> & Hcpu & Hcpu')].
  { split; [left; by eexists|]. split; [|by intros ? [=]].
    split; [by intros [? [=]]|].
    by intros (_ & _ & _ & _ & _ & _ & ? & _). }
  cbn beta iota. rewrite bind_unfold.
  destruct (io_samples_loop (collector_io_samples proc) [] w)
    as [(e & -> & Hnot)|(io & -> & Hio & Hio')].
  { split; [left; by eexists|]. split; [|by intros ? [=]].
    split; [by intros [? [=]]|].
    by intros (_ & _ & _ & _ & _ & _ & _ & ?). }
  cbn beta iota. rewrite mret_eq.
  split; [right; by eexists|]. split.
  - split; [intros _|by eexists].
    unfold stores, fits. repeat split; try done; by eexists.
  - intros response [= <-]. cbn. by repeat split.
Qed.

(** X14. The stats response is assembled without any effect on the world,
    and it is returned exactly when every value fits the field it is
    assigned to: the memory figures and byte counters lie in the range of
    their integer fields, and the creation time, the boot time and the
    timestamp of every sample convert to a number of microseconds in the
    range of theirs; otherwise the assembly raises. A response that is
    returned holds the memory figures and byte counters as they were read,
    and one sample for each sample of the collector, in the same order,
    with the timestamp converted and the other fields unchanged. *)
Theorem GetClientStats_response_renders_every_sample
    {pb : jobs_pb2} (w : World) :
  let proc := host w in
  ((∃ e, GetClientStats_response w = (Raised e, w)) ∨
   (∃ response, GetClientStats_response w = (Returned response, w))) ∧
  ((∃ response, GetClientStats_response w = (Returned response, w)) ↔
   fits "ClientStats.RSS_size" (get_memory_info proc).1 ∧
   fits "ClientStats.VMS_size" (get_memory_info proc).2 ∧
   fits "ClientStats.bytes_received"
     (STATS_Get proc "grr_client_received_bytes") ∧
   fits "ClientStats.bytes_sent" (STATS_Get proc "grr_client_sent_bytes") ∧
   stores "ClientStats.create_time" (proc_create_time proc) ∧
   stores "ClientStats.boot_time" (BOOT_TIME proc) ∧
   Forall cpu_storable (collector_cpu_samples proc) ∧
   Forall io_storable (collector_io_samples proc)) ∧
  ∀ response,
    GetClientStats_response w = (Returned response, w) →
    (RSS_size response, VMS_size response) = get_memory_info proc ∧
    memory_percent response = get_memory_percent proc ∧
    bytes_received response = STATS_Get proc "grr_client_received_bytes" ∧
    bytes_sent response = STATS_Get proc "grr_client_sent_bytes" ∧
    long (proc_create_time proc * 1e6)%float = inr (create_time response) ∧
    long (BOOT_TIME proc * 1e6)%float
      = inr (ClientStats_boot_time response) ∧
    Forall2 cpu_converted (collector_cpu_samples proc) (cpu_samples response) ∧
    Forall2 io_converted (collector_io_samples proc) (io_samples response).
Proof. apply GetClientStats_response_spec. Qed.

Lemma GetClientStats_response_renders_every_sample_witness :
  ∃ response,
    @GetClientStats_response sample_jobs_pb2 sample_world
      = (Returned response, sample_world) ∧
    length (cpu_samples response) = 2%nat ∧
    length (io_samples response) = 1%nat.
Proof.
  destruct (@GetClientStats_response_renders_every_sample sample_jobs_pb2
              sample_world) as (_ & _ & Hfields).
  eexists. split; [vm_compute; reflexivity|].
  edestruct Hfields as (_ & _ & _ & _ & _ & _ & Hcpu & Hio);
    [vm_compute; reflexivity|].
  apply Forall2_length in Hcpu, Hio. by rewrite <-Hcpu, <-Hio.
Defined.

(** ** The reports agree with one another *)

(** X15. The startup report carries the same client information (name,
    version, build time) as the reply of GetClientInfo: whenever
    SendStartupInfo returns, the client_info of its one message is the
    payload of the GetClientInfo reply. *)
Theorem startup_report_carries_the_GetClientInfo_reply
    {pb : jobs_pb2} {cc : client_config}
    (message : Request) (ttl' : option Z) (w : World) :
  ∃ info,
    answers_once message w (GetClientInfo_Run message)
      (PClientInformation info) ∧
    ((∃ e, SendStartupInfo_Run ttl' w = (Raised e, w)) ∨
     (∃ m startup,
        SendStartupInfo_Run ttl' w =
          (Returned (), with_trace (trace w ++ [EvSendReply m]) w) ∧
        payload m = PStartupInfo startup ∧
        client_info startup = info)).
Proof.
  eexists. split.
  - eexists _, _. split; [reflexivity|]. by repeat split.
  - rewrite SendStartupInfo_Run_eq.
    destruct (long _) as [e|booted]; [left; by exists e|].
    destruct (int_fits _ booted); [right|left; by exists ValueError].
    by eexists _, _.
Qed.

(** X16. The startup report and the stats response agree on the boot time:
    in one world, when SendStartupInfo returns with its message and the
    stats response is assembled, both carry the same boot time, which is
    the host's boot time converted to microseconds. *)
Theorem startup_report_and_stats_agree_on_boot_time
    {pb : jobs_pb2} {cc : client_config}
    (ttl' : option Z) (w : World) (m : GrrMessage) (startup : StartupInfo)
    (response : ClientStats) :
  SendStartupInfo_Run ttl' w =
    (Returned (), with_trace (trace w ++ [EvSendReply m]) w) →
  payload m = PStartupInfo startup →
  GetClientStats_response w = (Returned response, w) →
  boot_time startup = ClientStats_boot_time response ∧
  long (BOOT_TIME (host w) * 1e6)%float = inr (boot_time startup).
Proof.
  intros Hrun Hpayload Hresponse.
  destruct (GetClientStats_response_spec w) as (_ & _ & Hfields).
  destruct (Hfields response Hresponse) as (_ & _ & _ & _ & _ & Hboot & _).
  rewrite SendStartupInfo_Run_eq, Hboot in Hrun.
  destruct (int_fits _ _); [|discriminate Hrun].
  injection Hrun as Htrace. apply app_inv_head in Htrace.
  injection Htrace as <-. cbn in Hpayload. injection Hpayload as <-.
  by split.
Qed.

Lemma startup_report_and_stats_agree_on_boot_time_witness :
  ∃ m startup response,
    @SendStartupInfo_Run sample_jobs_pb2 sample_client_config (Some 30)
      sample_world =
      (Returned (), with_trace (trace sample_world ++ [EvSendReply m])
                      sample_world) ∧
    payload m = PStartupInfo startup ∧
    @GetClientStats_response sample_jobs_pb2 sample_world
      = (Returned response, sample_world) ∧
    boot_time startup = ClientStats_boot_time response.
Proof.
  eexists _, _, _.
  split; [vm_compute; reflexivity|].
  split; [reflexivity|].
  split; [vm_compute; reflexivity|].
  eapply (@startup_report_and_stats_agree_on_boot_time sample_jobs_pb2
            sample_client_config (Some 30) sample_world);
    [vm_compute; reflexivity|reflexivity|vm_compute; reflexivity].
Defined.

(** ** UpdateConfig read back by GetConfig *)

(** X17. Round trip of a request through the flags: after UpdateConfig on
    a request with distinct field names, however the persistence call
    ended, a GetConfig run returns when every flag then fits its GRRConfig
    field (and otherwise raises without a reply), and its reply reports
    for each field of the request that is in the descriptor the value of
    the request when the field is on the whitelist, and what the flag held
    before when it is not. *)
Theorem GetConfig_reads_back_an_UpdateConfig_request
    {pb : jobs_pb2} (arg : GRRConfig) (message : Request) (w : World)
    (name : string) (value : PyValue) :
  NoDup arg.*1 → (name, value) ∈ arg → name ∈ GRRConfig_fields →
  let w1 := (UpdateConfig_Run arg w).2 in
  ((∃ e, GetConfig_Run message w1 = (Raised e, w1)) ∧
   ¬ flags_fit (FLAGS w1)) ∨
  (flags_fit (FLAGS w1) ∧
   ∃ out,
     answers_once message w1 (GetConfig_Run message) (PGRRConfig out) ∧
     pb_getattr out name =
       if decide (name ∈ UPDATEABLE_FIELDS) then Some value
       else FLAGS w !! name).
Proof.
  intros Hnd Hin Hfield w1.
  destruct (read_flags (FLAGS w1) GRRConfig_fields []) as [e|out] eqn:Hout.
  { left. rewrite GetConfig_Run_eq, Hout. split; [by exists e|].
    intros Hfit. by rewrite (read_flags_fit _ _ _ Hfit) in Hout. }
  right. destruct (read_flags_inr _ _ _ _ Hout) as [Heq Hfit].
  split; [exact Hfit|]. exists out. split.
  - unfold answers_once. rewrite GetConfig_Run_eq, Hout.
    eexists _, _. split; [reflexivity|]. by repeat split.
  - rewrite Heq, read_flags_lookup, decide_True by done.
    unfold w1. rewrite UpdateConfig_Run_eq. cbn.
    destruct (decide (name ∈ UPDATEABLE_FIELDS)) as [Hal|Hal].
    + by rewrite (apply_fields_in _ _ _ value).
    + rewrite apply_fields_not_allowed by done.
      by destruct (FLAGS w !! name).
Qed.

Lemma GetConfig_reads_back_an_UpdateConfig_request_witness :
  NoDup mixed_request.*1 ∧ ("verbose", VBool true) ∈ mixed_request ∧
  ∃ out,
    @answers_once sample_jobs_pb2 sample_request
      (UpdateConfig_Run mixed_request sample_world).2
      (@GetConfig_Run sample_jobs_pb2 sample_request) (PGRRConfig out) ∧
    pb_getattr out "verbose" = Some (VBool true).
Proof.
  assert (NoDup mixed_request.*1) as Hnd by by_decision.
  assert (("verbose", VBool true) ∈ mixed_request) as Hin by in_list.
  split; [exact Hnd|]. split; [exact Hin|].
  destruct (@GetConfig_reads_back_an_UpdateConfig_request sample_jobs_pb2
              mixed_request sample_request sample_world "verbose"
              (VBool true) Hnd Hin) as [[_ Hnot]|(_ & out & Hrun & Hget)];
    [by_decision| |].
  - exfalso. apply Hnot. intros field value Hfield Hflag.
    repeat (apply elem_of_cons in Hfield as [->|Hfield];
            [vm_compute in Hflag;
             by (discriminate Hflag || injection Hflag as <-)|]).
    by apply elem_of_nil in Hfield.
  - exists out. split; [exact Hrun|].
    rewrite Hget. by rewrite decide_True by by_decision.
Defined.
